(** * LiquidMoney: the ledger store, the balance reconciliation ("domino")
    logic and the backup codec, embedded in Rocq.

    Sources: [src/src/database/db.ts] (schema), [src/src/database/queries.ts]
    (CRUD, reconciliation, statistics, export/import of rows) and the
    backup service ([backupService.ts], here [src/unnamed/part_003]).

    The SQLite database is a record of two tables, each a list of rows.
    Every [db.execute] is one primitive statement of a state-and-error
    monad: a statement that violates a constraint of the schema throws, and
    the statements executed before it keep their effect (the code opens no
    SQL transaction). *)

From Stdlib Require Import String List ZArith Bool Lia Permutation Ascii Sorted.
Import ListNotations.
Open Scope Z_scope.
Open Scope string_scope.

(** ** Data model ([interface Wallet], [interface Transaction]) *)

Inductive TxType := IN | OUT.

Definition TxType_eqb (a b : TxType) : bool :=
  match a, b with
  | IN, IN | OUT, OUT => true
  | _, _ => false
  end.

Module Wallet.
Record t := mk {
    id : string;
    name : string;
    initial_balance : Z;
    current_balance : Z;
    image_uri : option string;
    icon : option string;
    created_at : string
  }.
End Wallet.

Module Transaction.
Record t := mk {
    id : string;
    wallet_id : string;
    type : TxType;
    amount : Z;
    reason : option string;
    image_uri : option string;
    created_at : string
  }.
End Transaction.

(** The two tables of [initDatabase]. *)
Record db := mkdb {
  wallets : list Wallet.t;
  transactions : list Transaction.t
}.

(** Errors thrown by the storage engine or by the backup service. *)
Inductive error :=
| SqlitePrimaryKey          (* UNIQUE constraint failed on an [id] *)
| SqliteForeignKey          (* FOREIGN KEY constraint failed *)
| BackupInvalid (msg : string).

Inductive result (A : Type) :=
| Ok (a : A)
| Throw (e : error).
Arguments Ok {A} a.
Arguments Throw {A} e.

(** A JS function over a mutable state [S] that may throw: on a throw the
    state reached so far is kept. *)
Definition M (S A : Type) := S -> result A * S.

Definition ret {S A} (a : A) : M S A := fun s => (Ok a, s).

Definition bind {S A B} (m : M S A) (k : A -> M S B) : M S B :=
  fun s => match m s with
           | (Ok a, s') => k a s'
           | (Throw e, s') => (Throw e, s')
           end.

Definition throw {S A} (e : error) : M S A := fun s => (Throw e, s).

Notation "x <- m ;; k" := (bind m (fun x => k))
  (at level 61, m at next level, right associativity).
Notation "m ;;; k" := (bind m (fun _ => k))
  (at level 61, right associativity).

(** Running the same [for ... of] body over every element of a list. *)
Fixpoint for_each {S A} (f : A -> M S unit) (l : list A) : M S unit :=
  match l with
  | [] => ret tt
  | x :: l' => f x ;;; for_each f l'
  end.

(** JS truthiness of a [string | null] value: [null] and [""] are falsy. *)
Definition truthy (v : option string) : bool :=
  match v with
  | None => false
  | Some s => negb (s =? "")
  end.

(** [x ?? d] *)
Definition coalesce {A} (x : option A) (d : A) : A :=
  match x with Some a => a | None => d end.

(** ** SQL statements used by [queries.ts]

    Each definition is one [db.execute] call, named after its SQL text. *)

Definition wallet_exists (wid : string) (d : db) : bool :=
  existsb (fun w => Wallet.id w =? wid) (wallets d).

(** [SELECT initial_balance FROM wallets WHERE id = ?] *)
Definition select_initial_balance (wid : string) : M db (list Z) :=
  fun d => (Ok (map Wallet.initial_balance
                  (filter (fun w => Wallet.id w =? wid) (wallets d))), d).

(** The value of [SUM(amount)] over the rows of [wallet_id = wid AND type = ty]. *)
Definition sum_amount (txs : list Transaction.t) (wid : string) (ty : TxType) : Z :=
  fold_right (fun t acc =>
                if (Transaction.wallet_id t =? wid) && TxType_eqb (Transaction.type t) ty
                then Transaction.amount t + acc else acc) 0 txs.

(** [SELECT COALESCE(SUM(amount), 0) as total FROM transactions
     WHERE wallet_id = ? AND type = ?]: always one row. *)
Definition select_total (wid : string) (ty : TxType) : M db (list Z) :=
  fun d => (Ok [sum_amount (transactions d) wid ty], d).

(** [inRows.length > 0 ? inRows[0].total : 0] *)
Definition first_or_zero (rows : list Z) : Z :=
  match rows with [] => 0 | z :: _ => z end.

Definition set_current_balance (b : Z) (w : Wallet.t) : Wallet.t :=
  Wallet.mk (Wallet.id w) (Wallet.name w) (Wallet.initial_balance w) b
            (Wallet.image_uri w) (Wallet.icon w) (Wallet.created_at w).

Definition map_wallets (f : Wallet.t -> Wallet.t) (wid : string) (d : db) : db :=
  mkdb (map (fun w => if Wallet.id w =? wid then f w else w) (wallets d))
       (transactions d).

(** [UPDATE wallets SET current_balance = ? WHERE id = ?] *)
Definition update_current_balance (b : Z) (wid : string) : M db unit :=
  fun d => (Ok tt, map_wallets (set_current_balance b) wid d).

(** [UPDATE wallets SET name = ?, initial_balance = ?, image_uri = ?, icon = ?
     WHERE id = ?] *)
Definition update_wallet_row (name : string) (ib : Z) (img icon : option string)
  (wid : string) : M db unit :=
  fun d => (Ok tt, map_wallets (fun w =>
              Wallet.mk (Wallet.id w) name ib (Wallet.current_balance w)
                        img icon (Wallet.created_at w)) wid d).

(** [UPDATE wallets SET name = ?, initial_balance = ?, current_balance = ?,
     icon = ? WHERE id = ?] *)
Definition update_wallet_direct_row (name : string) (ib cb : Z) (icon : option string)
  (wid : string) : M db unit :=
  fun d => (Ok tt, map_wallets (fun w =>
              Wallet.mk (Wallet.id w) name ib cb
                        (Wallet.image_uri w) icon (Wallet.created_at w)) wid d).

(** [DELETE FROM wallets WHERE id = ?]; with [PRAGMA foreign_keys = ON] the
    [ON DELETE CASCADE] of [transactions.wallet_id] removes the wallet's
    transactions in the same statement. *)
Definition delete_wallet_row (wid : string) : M db unit :=
  fun d => (Ok tt, mkdb (filter (fun w => negb (Wallet.id w =? wid)) (wallets d))
                        (filter (fun t => negb (Transaction.wallet_id t =? wid))
                                (transactions d))).

(** [INSERT INTO wallets (...) VALUES (...)]: the primary key is checked. *)
Definition insert_wallet_row (w : Wallet.t) : M db unit :=
  fun d => if wallet_exists (Wallet.id w) d then (Throw SqlitePrimaryKey, d)
           else (Ok tt, mkdb (wallets d ++ [w]) (transactions d)).

Definition transaction_exists (tid : string) (d : db) : bool :=
  existsb (fun t => Transaction.id t =? tid) (transactions d).

(** [INSERT INTO transactions (...) VALUES (...)]: primary key, then the
    foreign key to [wallets(id)]. *)
Definition insert_transaction_row (t : Transaction.t) : M db unit :=
  fun d => if transaction_exists (Transaction.id t) d then (Throw SqlitePrimaryKey, d)
           else if negb (wallet_exists (Transaction.wallet_id t) d)
           then (Throw SqliteForeignKey, d)
           else (Ok tt, mkdb (wallets d) (transactions d ++ [t])).

(** [SELECT wallet_id FROM transactions WHERE id = ?] *)
Definition select_wallet_id (tid : string) : M db (list string) :=
  fun d => (Ok (map Transaction.wallet_id
                  (filter (fun t => Transaction.id t =? tid) (transactions d))), d).

(** [UPDATE transactions SET wallet_id = ?, type = ?, amount = ?, reason = ?,
     image_uri = ? WHERE id = ?]: the foreign key is checked on the updated
    rows (there are none when [id] is unknown). *)
Definition update_transaction_row (tid wid : string) (ty : TxType) (amount : Z)
  (reason img : option string) : M db unit :=
  fun d =>
    if transaction_exists tid d && negb (wallet_exists wid d)
    then (Throw SqliteForeignKey, d)
    else (Ok tt, mkdb (wallets d)
                   (map (fun t => if Transaction.id t =? tid
                                  then Transaction.mk (Transaction.id t) wid ty amount
                                         reason img (Transaction.created_at t)
                                  else t) (transactions d))).

(** [DELETE FROM transactions WHERE id = ?] *)
Definition delete_transaction_row (tid : string) : M db unit :=
  fun d => (Ok tt, mkdb (wallets d)
                        (filter (fun t => negb (Transaction.id t =? tid))
                                (transactions d))).

(** Stable insertion sort, for [ORDER BY created_at]. *)
Fixpoint insert_by {A} (le : A -> A -> bool) (x : A) (l : list A) : list A :=
  match l with
  | [] => [x]
  | y :: l' => if le x y then x :: l else y :: insert_by le x l'
  end.

Fixpoint sort_by {A} (le : A -> A -> bool) (l : list A) : list A :=
  match l with
  | [] => []
  | x :: l' => insert_by le x (sort_by le l')
  end.

(** [SELECT * FROM transactions WHERE wallet_id = ? [AND type = ?]
     ORDER BY created_at DESC] *)
Definition select_transactions_of (wid : string) (ty : option TxType)
  : M db (list Transaction.t) :=
  fun d =>
    (Ok (sort_by (fun a b => String.leb (Transaction.created_at b)
                                        (Transaction.created_at a))
           (filter (fun t => (Transaction.wallet_id t =? wid) &&
                             match ty with
                             | Some k => TxType_eqb (Transaction.type t) k
                             | None => true
                             end) (transactions d))), d).

(** ** [queries.ts] *)

(** [recalculateBalance(walletId)] *)
Definition recalculateBalance (walletId : string) : M db unit :=
  walletRows <- select_initial_balance walletId ;;
  match walletRows with
  | [] => ret tt
  | initialBalance :: _ =>
      inRows <- select_total walletId IN ;;
      let totalIn := first_or_zero inRows in
      outRows <- select_total walletId OUT ;;
      let totalOut := first_or_zero outRows in
      let newBalance := initialBalance + totalIn - totalOut in
      update_current_balance newBalance walletId
  end.

(** [updateWallet(id, name, initialBalance, imageUri?, icon?)]; an omitted
    or [null] optional argument is [None]. *)
Definition updateWallet (id name : string) (initialBalance : Z)
  (imageUri icon : option string) : M db unit :=
  update_wallet_row name initialBalance imageUri (Some (coalesce icon "Wallet")) id ;;;
  recalculateBalance id.

(** [deleteWallet(id)] *)
Definition deleteWallet (id : string) : M db unit :=
  delete_wallet_row id.

(** [updateWalletDirect(id, name, newCurrentBalance, icon?)] *)
Definition updateWalletDirect (id name : string) (newCurrentBalance : Z)
  (icon : option string) : M db unit :=
  inRows <- select_total id IN ;;
  let totalIn := first_or_zero inRows in
  outRows <- select_total id OUT ;;
  let totalOut := first_or_zero outRows in
  let newInitialBalance := newCurrentBalance - totalIn + totalOut in
  update_wallet_direct_row name newInitialBalance newCurrentBalance
    (Some (coalesce icon "Wallet")) id.

(** [createTransaction(walletId, type, amount, reason?, imageUri?)]; [id] and
    [createdAt] are the values of [generateUUID()] and [nowISO()]. *)
Definition createTransaction (id createdAt : string) (walletId : string)
  (type : TxType) (amount : Z) (reason imageUri : option string)
  : M db Transaction.t :=
  insert_transaction_row
    (Transaction.mk id walletId type amount reason imageUri createdAt) ;;;
  recalculateBalance walletId ;;;
  ret (Transaction.mk id walletId type amount reason imageUri createdAt).

(** [updateTransaction(id, walletId, type, amount, reason?, imageUri?)] *)
Definition updateTransaction (id walletId : string) (type : TxType) (amount : Z)
  (reason imageUri : option string) : M db unit :=
  oldRows <- select_wallet_id id ;;
  let oldWalletId := match oldRows with [] => None | w :: _ => Some w end in
  update_transaction_row id walletId type amount reason imageUri ;;;
  recalculateBalance walletId ;;;
  if truthy oldWalletId && negb (coalesce oldWalletId "" =? walletId)
  then recalculateBalance (coalesce oldWalletId "")
  else ret tt.

(** [deleteTransaction(id)] *)
Definition deleteTransaction (id : string) : M db unit :=
  rows <- select_wallet_id id ;;
  let walletId := match rows with [] => None | w :: _ => Some w end in
  delete_transaction_row id ;;;
  if truthy walletId then recalculateBalance (coalesce walletId "") else ret tt.

(** [getTransactionsByWallet(walletId, filterType?)] *)
Definition getTransactionsByWallet (walletId : string) (filterType : option TxType)
  : M db (list Transaction.t) :=
  select_transactions_of walletId filterType.

(** ** The forward invariant *)

(** [current_balance == initial_balance + SUM(IN) - SUM(OUT)] for [w]. *)
Definition balanced (txs : list Transaction.t) (w : Wallet.t) : Prop :=
  Wallet.current_balance w =
  Wallet.initial_balance w + sum_amount txs (Wallet.id w) IN
  - sum_amount txs (Wallet.id w) OUT.

Definition consistent (d : db) : Prop :=
  Forall (balanced (transactions d)) (wallets d).

(** The primary keys of both tables. *)
Definition keys_unique (d : db) : Prop :=
  NoDup (map Wallet.id (wallets d)) /\ NoDup (map Transaction.id (transactions d)).

(** Every wallet satisfies the forward formula, except possibly those whose
    id is listed in [R] (still to be reconciled). *)
Definition ok_except (R : list string) (d : db) : Prop :=
  Forall (fun w => In (Wallet.id w) R \/ balanced (transactions d) w) (wallets d).

(** A ledger state as the reconciling mutations find it: unique keys, the
    forward formula everywhere, and no wallet whose id is the empty string. *)
Definition ledger_ok (d : db) : Prop :=
  keys_unique d /\ ~ In "" (map Wallet.id (wallets d)) /\ consistent d.

(** The state after a call, whatever its outcome. *)
Definition after {S A} (m : M S A) (s : S) : S := snd (m s).

(** The wallet row with [current_balance] recomputed by the forward formula
    over [txs]. *)
Definition reconcile (txs : list Transaction.t) (w : Wallet.t) : Wallet.t :=
  set_current_balance
    (Wallet.initial_balance w + sum_amount txs (Wallet.id w) IN
     - sum_amount txs (Wallet.id w) OUT) w.

(** The wallet row without its [current_balance]. *)
Definition strip (w : Wallet.t) : Wallet.t := set_current_balance 0 w.

(** ** Sequences of ledger mutations *)

(** The four mutations that reconcile a wallet, each one call of
    [queries.ts] with its arguments. *)
Inductive mutation :=
| CreateTransaction (id createdAt walletId : string) (type : TxType) (amount : Z)
    (reason imageUri : option string)
| UpdateTransaction (id walletId : string) (type : TxType) (amount : Z)
    (reason imageUri : option string)
| DeleteTransaction (id : string)
| UpdateWallet (id name : string) (initialBalance : Z) (imageUri icon : option string).

Definition run_mutation (m : mutation) : M db unit :=
  match m with
  | CreateTransaction id createdAt walletId type amount reason imageUri =>
      createTransaction id createdAt walletId type amount reason imageUri ;;; ret tt
  | UpdateTransaction id walletId type amount reason imageUri =>
      updateTransaction id walletId type amount reason imageUri
  | DeleteTransaction id => deleteTransaction id
  | UpdateWallet id name initialBalance imageUri icon =>
      updateWallet id name initialBalance imageUri icon
  end.

(** The calls are issued one after the other; a call that throws leaves the
    state its executed statements produced, and the next call still runs. *)
Definition run_all (ms : list mutation) (d : db) : db :=
  fold_left (fun d m => after (run_mutation m) d) ms d.

(** ** Export / import of rows ([getExportData], [importData]) *)

Module ExportData.
Record t := mk {
    wallets : list Wallet.t;
    transactions : list Transaction.t
  }.
End ExportData.

(** [DELETE FROM transactions] *)
Definition delete_all_transactions : M db unit :=
  fun d => (Ok tt, mkdb (wallets d) []).

(** [DELETE FROM wallets] (the cascade has nothing left to remove once the
    transactions are gone; it removes them all otherwise). *)
Definition delete_all_wallets : M db unit :=
  fun d => (Ok tt, mkdb [] []).

(** [SELECT id FROM wallets] *)
Definition select_wallet_ids : M db (list string) :=
  fun d => (Ok (map Wallet.id (wallets d)), d).

(** [SELECT * FROM wallets ORDER BY created_at ASC] and the same on
    [transactions]. *)
Definition getExportData : M db ExportData.t :=
  fun d =>
    (Ok (ExportData.mk
           (sort_by (fun a b => String.leb (Wallet.created_at a) (Wallet.created_at b))
              (wallets d))
           (sort_by (fun a b => String.leb (Transaction.created_at a)
                                           (Transaction.created_at b))
              (transactions d))), d).

(** The row bound by the wallet [INSERT] of [importData]:
    [wallet.icon ?? 'Wallet']. *)
Definition import_wallet_row (w : Wallet.t) : Wallet.t :=
  Wallet.mk (Wallet.id w) (Wallet.name w) (Wallet.initial_balance w)
            (Wallet.current_balance w) (Wallet.image_uri w)
            (Some (coalesce (Wallet.icon w) "Wallet")) (Wallet.created_at w).

(** [importData(data)] *)
Definition importData (data : ExportData.t) : M db unit :=
  delete_all_transactions ;;;
  delete_all_wallets ;;;
  for_each (fun wallet => insert_wallet_row (import_wallet_row wallet))
    (ExportData.wallets data) ;;;
  for_each (fun txn => insert_transaction_row txn) (ExportData.transactions data) ;;;
  walletIds <- select_wallet_ids ;;
  for_each (fun w => recalculateBalance w) walletIds.

(** ** The backup service ([backupService.ts]) *)

(** A field of the parsed backup document, as [JSON.parse] may leave it:
    [undefined] when absent, or any JSON value; the elements of an array are
    taken to be records of the expected shape. *)
Inductive jsfield (A : Type) :=
| JUndefined
| JNull
| JBool (b : bool)
| JNumber (n : Z)
| JString (s : string)
| JObject
| JArray (l : list A).
Arguments JUndefined {A}.
Arguments JNull {A}.
Arguments JBool {A} b.
Arguments JNumber {A} n.
Arguments JString {A} s.
Arguments JObject {A}.
Arguments JArray {A} l.

(** [!!v] *)
Definition js_truthy {A} (v : jsfield A) : bool :=
  match v with
  | JUndefined | JNull => false
  | JBool b => b
  | JNumber n => negb (n =? 0)%Z
  | JString s => negb (s =? "")
  | JObject | JArray _ => true
  end.

(** [Array.isArray(v)] *)
Definition isArray {A} (v : jsfield A) : bool :=
  match v with JArray _ => true | _ => false end.

(** The elements of a field that passed [Array.isArray]. *)
Definition array_elements {A} (v : jsfield A) : list A :=
  match v with JArray l => l | _ => [] end.

Module BackupWallet.
Record t := mk { wallet : Wallet.t; image_base64 : option string }.
End BackupWallet.

Module BackupTransaction.
Record t := mk { txn : Transaction.t; image_base64 : option string }.
End BackupTransaction.

(** [interface BackupData] after [JSON.parse]. *)
Module BackupData.
Record t := mk {
    version : Z;
    app : string;
    exported_at : string;
    wallets : jsfield BackupWallet.t;
    transactions : jsfield BackupTransaction.t
  }.
End BackupData.

(** The app's files: path to content (the bytes, as the base64 text that
    [readFile(path, 'base64')] returns). Directories are not modelled. *)
Definition fstore := string -> option string.

Record sys := mksys { sdb : db; files : fstore }.

Definition lift_db {A} (m : M db A) : M sys A :=
  fun s => let (r, d') := m (sdb s) in (r, mksys d' (files s)).

(** [for (const x of l) out.push(await f(x))] *)
Fixpoint map_m {S A B} (f : A -> M S B) (l : list A) : M S (list B) :=
  match l with
  | [] => ret []
  | x :: l' => y <- f x ;; ys <- map_m f l' ;; ret (y :: ys)
  end.

Definition BACKUP_VERSION : Z := 1.

Section Backup.

(** [RNFS.DocumentDirectoryPath], fixed by the platform. *)
Variable DocumentDirectoryPath : string.

Definition IMAGE_DIR : string := DocumentDirectoryPath ++ "/liquidmoney_images".

(** [fileToBase64(filePath)]: [null] when the file does not exist. *)
Definition fileToBase64 (filePath : string) : M sys (option string) :=
  fun s => (Ok (files s filePath), s).

(** [base64ToFile(base64Data, fileName)] *)
Definition base64ToFile (base64Data fileName : string) : M sys string :=
  fun s =>
    let filePath := IMAGE_DIR ++ "/" ++ fileName in
    (Ok filePath,
     mksys (sdb s) (fun p => if p =? filePath then Some base64Data else files s p)).

(** [clearImageDirectory()]: [RNFS.unlink(IMAGE_DIR)] removes the directory
    with every file in it. *)
Definition clearImageDirectory : M sys unit :=
  fun s => (Ok tt, mksys (sdb s)
                         (fun p => if String.prefix (IMAGE_DIR ++ "/") p then None
                                   else files s p)).

Definition backup_wallet (wallet : Wallet.t) : M sys BackupWallet.t :=
  imageBase64 <- (if truthy (Wallet.image_uri wallet)
                  then fileToBase64 (coalesce (Wallet.image_uri wallet) "")
                  else ret None) ;;
  ret (BackupWallet.mk wallet imageBase64).

Definition backup_transaction (txn : Transaction.t) : M sys BackupTransaction.t :=
  imageBase64 <- (if truthy (Transaction.image_uri txn)
                  then fileToBase64 (coalesce (Transaction.image_uri txn) "")
                  else ret None) ;;
  ret (BackupTransaction.mk txn imageBase64).

(** [exportBackup()], up to the document it serialises: [JSON.stringify]
    followed by [JSON.parse] gives back this document, which is what the
    import reads; [exportedAt] is [new Date().toISOString()]. *)
Definition exportBackup (exportedAt : string) : M sys BackupData.t :=
  rawData <- lift_db getExportData ;;
  wallets <- map_m backup_wallet (ExportData.wallets rawData) ;;
  transactions <- map_m backup_transaction (ExportData.transactions rawData) ;;
  ret (BackupData.mk BACKUP_VERSION "LiquidMoney" exportedAt
         (JArray wallets) (JArray transactions)).

Definition with_wallet_image (w : Wallet.t) (img : option string) : Wallet.t :=
  Wallet.mk (Wallet.id w) (Wallet.name w) (Wallet.initial_balance w)
            (Wallet.current_balance w) img (Wallet.icon w) (Wallet.created_at w).

Definition with_txn_image (t : Transaction.t) (img : option string) : Transaction.t :=
  Transaction.mk (Transaction.id t) (Transaction.wallet_id t) (Transaction.type t)
                 (Transaction.amount t) (Transaction.reason t) img
                 (Transaction.created_at t).

Definition restore_wallet (bw : BackupWallet.t) : M sys Wallet.t :=
  newImageUri <-
    (if truthy (BackupWallet.image_base64 bw)
     then p <- base64ToFile (coalesce (BackupWallet.image_base64 bw) "")
                 ("wallet_" ++ Wallet.id (BackupWallet.wallet bw) ++ ".jpg") ;;
          ret (Some p)
     else ret None) ;;
  ret (with_wallet_image (BackupWallet.wallet bw) newImageUri).

Definition restore_transaction (bt : BackupTransaction.t) : M sys Transaction.t :=
  newImageUri <-
    (if truthy (BackupTransaction.image_base64 bt)
     then p <- base64ToFile (coalesce (BackupTransaction.image_base64 bt) "")
                 ("txn_" ++ Transaction.id (BackupTransaction.txn bt) ++ ".jpg") ;;
          ret (Some p)
     else ret None) ;;
  ret (with_txn_image (BackupTransaction.txn bt) newImageUri).

(** [importBackup()] from the parsed document on (the picker, the read of
    the file and [JSON.parse] come before); it resolves to [true]. *)
Definition importBackup (backup : BackupData.t) : M sys bool :=
  if negb (js_truthy (BackupData.wallets backup)) || negb (isArray (BackupData.wallets backup))
  then throw (BackupInvalid "File backup không hợp lệ: thiếu danh sách ví.")
  else
  if negb (js_truthy (BackupData.transactions backup))
     || negb (isArray (BackupData.transactions backup))
  then throw (BackupInvalid "File backup không hợp lệ: thiếu danh sách giao dịch.")
  else
  clearImageDirectory ;;;
  wallets <- map_m restore_wallet (array_elements (BackupData.wallets backup)) ;;
  transactions <- map_m restore_transaction (array_elements (BackupData.transactions backup)) ;;
  lift_db (importData (ExportData.mk wallets transactions)) ;;;
  ret true.

End Backup.

(** Export, then import of the document the export produced. *)
Definition export_then_import (DocumentDirectoryPath exportedAt : string) : M sys bool :=
  doc <- exportBackup exportedAt ;;
  importBackup DocumentDirectoryPath doc.

(** The [image_base64] the export records for an [image_uri]. *)
Definition exported_image (fs : fstore) (uri : option string) : option string :=
  if truthy uri then fs (coalesce uri "") else None.

(** The [image_uri] the import stores for an [image_base64]. *)
Definition imported_image_uri (DocumentDirectoryPath prefix id : string)
  (b64 : option string) : option string :=
  if truthy b64
  then Some (IMAGE_DIR DocumentDirectoryPath ++ "/" ++ (prefix ++ id ++ ".jpg"))
  else None.

Definition restored_wallet (DocumentDirectoryPath : string) (bw : BackupWallet.t) : Wallet.t :=
  with_wallet_image (BackupWallet.wallet bw)
    (imported_image_uri DocumentDirectoryPath "wallet_"
       (Wallet.id (BackupWallet.wallet bw)) (BackupWallet.image_base64 bw)).

Definition restored_transaction (DocumentDirectoryPath : string)
  (bt : BackupTransaction.t) : Transaction.t :=
  with_txn_image (BackupTransaction.txn bt)
    (imported_image_uri DocumentDirectoryPath "txn_"
       (Transaction.id (BackupTransaction.txn bt)) (BackupTransaction.image_base64 bt)).

(** A wallet row after export and import: the image is re-homed, the icon
    defaulted, the balance recomputed. *)
Definition roundtrip_wallet (DocumentDirectoryPath : string) (fs : fstore)
  (txs : list Transaction.t) (w : Wallet.t) : Wallet.t :=
  reconcile txs (import_wallet_row
    (restored_wallet DocumentDirectoryPath
       (BackupWallet.mk w (exported_image fs (Wallet.image_uri w))))).

Definition roundtrip_transaction (DocumentDirectoryPath : string) (fs : fstore)
  (t : Transaction.t) : Transaction.t :=
  restored_transaction DocumentDirectoryPath
    (BackupTransaction.mk t (exported_image fs (Transaction.image_uri t))).

(** The foreign key [transactions.wallet_id REFERENCES wallets(id)]. *)
Definition fk_ok (d : db) : Prop :=
  forall t, In t (transactions d) -> In (Transaction.wallet_id t) (map Wallet.id (wallets d)).

(** ** Monthly statistics *)

(** The calendar of [Date]: days since 1970-01-01 of a proleptic Gregorian
    date ([m] from 1 to 12), and back. *)
Definition days_from_civil (y m d : Z) : Z :=
  let y' := if (m <=? 2)%Z then y - 1 else y in
  let era := y' / 400 in
  let yoe := y' - era * 400 in
  let mp := (m + 9) mod 12 in
  let doy := (153 * mp + 2) / 5 + d - 1 in
  let doe := yoe * 365 + yoe / 4 - yoe / 100 + doy in
  era * 146097 + doe - 719468.

Definition civil_from_days (z : Z) : Z * Z * Z :=
  let z' := z + 719468 in
  let era := z' / 146097 in
  let doe := z' - era * 146097 in
  let yoe := (doe - doe / 1460 + doe / 36524 - doe / 146096) / 365 in
  let doy := doe - (365 * yoe + yoe / 4 - yoe / 100) in
  let mp := (5 * doy + 2) / 153 in
  let d := doy - (153 * mp + 2) / 5 + 1 in
  let m := if (mp <? 10)%Z then mp + 3 else mp - 9 in
  let y := yoe + era * 400 in
  (if (m <=? 2)%Z then y + 1 else y, m, d).

Definition ms_per_day : Z := 86400000.

(** A time value (milliseconds since the epoch, UTC) and the local time
    zone, as its offset [tz] in minutes ahead of UTC (420 in Vietnam). *)
Definition local_ms (tz now : Z) : Z := now + tz * 60000.

(** [now.getFullYear()] and [now.getMonth()] (0-based). *)
Definition getFullYear (tz now : Z) : Z :=
  let '(y, _, _) := civil_from_days (local_ms tz now / ms_per_day) in y.

Definition getMonth (tz now : Z) : Z :=
  let '(_, m, _) := civil_from_days (local_ms tz now / ms_per_day) in m - 1.

(** [new Date(y, m, 1)] with a 0-based month out of range carried into the
    year, at local midnight. *)
Definition new_Date_local (tz y m : Z) : Z :=
  days_from_civil (y + m / 12) (m mod 12 + 1) 1 * ms_per_day - tz * 60000.

Definition digit (n : Z) : ascii := ascii_of_nat (48 + Z.to_nat n).

Fixpoint dec_aux (fuel : nat) (n : Z) (acc : string) : string :=
  match fuel with
  | O => acc
  | S f => let acc' := String (digit (n mod 10)) acc in
           if (n <? 10)%Z then acc' else dec_aux f (n / 10) acc'
  end.

(** [String(n)] for a non-negative integer. *)
Definition z_to_dec (n : Z) : string := dec_aux 20 n "".

Fixpoint repeat_char (n : nat) (c : ascii) : string :=
  match n with O => "" | S k => String c (repeat_char k c) end.

(** [s.padStart(n, c)] *)
Definition padStart (n : nat) (c : ascii) (s : string) : string :=
  repeat_char (n - String.length s) c ++ s.

(** [Date.prototype.toISOString] for the years 0 to 9999. *)
Definition toISOString (t : Z) : string :=
  let '(y, m, d) := civil_from_days (t / ms_per_day) in
  let r := t mod ms_per_day in
  let p2 (n : Z) : string := padStart 2 "0"%char (z_to_dec n) in
  padStart 4 "0"%char (z_to_dec y) ++ "-" ++ p2 m ++ "-" ++ p2 d ++ "T" ++
  p2 (r / 3600000) ++ ":" ++ p2 (r / 60000 mod 60) ++ ":" ++ p2 (r / 1000 mod 60) ++
  "." ++ padStart 3 "0"%char (z_to_dec (r mod 1000)) ++ "Z".

(** [str.split('-')] *)
Fixpoint split_dash (s : string) : list string :=
  match s with
  | "" => [""]
  | String c s' =>
      if Ascii.eqb c "-"%char then "" :: split_dash s'
      else match split_dash s' with
           | [] => [String c ""]
           | x :: xs => String c x :: xs
           end
  end.

(** [Number(s)] on a string of decimal digits; [None] is [NaN]. *)
Fixpoint number_aux (s : string) (acc : Z) : option Z :=
  match s with
  | "" => Some acc
  | String c s' =>
      let n := Z.of_nat (nat_of_ascii c) - 48 in
      if (0 <=? n)%Z && (n <=? 9)%Z then number_aux s' (acc * 10 + n) else None
  end.

Definition Number (s : string) : option Z :=
  match s with "" => Some 0 | _ => number_aux s 0 end.

Module MonthlyStat.
Record t := mk { month : string; totalIn : Z; totalOut : Z }.
End MonthlyStat.

(** The six months: [for (let i = 5; i >= 0; i--)], from
    [new Date(now.getFullYear(), now.getMonth() - i, 1)]. *)
Definition stat_months (tz now : Z) : list string :=
  map (fun i =>
         let d := new_Date_local tz (getFullYear tz now) (getMonth tz now - i) in
         let m := padStart 2 "0"%char (z_to_dec (getMonth tz d + 1)) in
         z_to_dec (getFullYear tz d) ++ "-" ++ m)
      [5; 4; 3; 2; 1; 0].

(** The rows of [SELECT type, COALESCE(SUM(amount), 0) as total FROM
    transactions WHERE [wallet_id = ? AND] created_at >= ? AND created_at < ?
    GROUP BY type]: one row per type present. *)
Definition month_rows (walletId : option string) (startDate endDate : string)
  (txs : list Transaction.t) : list (TxType * Z) :=
  let sel := filter (fun t =>
               (if truthy walletId then Transaction.wallet_id t =? coalesce walletId ""
                else true) &&
               String.leb startDate (Transaction.created_at t) &&
               String.ltb (Transaction.created_at t) endDate) txs in
  flat_map (fun ty =>
              match filter (fun t => TxType_eqb (Transaction.type t) ty) sel with
              | [] => []
              | g => [(ty, fold_right (fun t acc => Transaction.amount t + acc) 0 g)]
              end) [IN; OUT].

(** The loop over the rows, from [totalIn = 0] and [totalOut = 0]. *)
Definition totals (rows : list (TxType * Z)) : Z * Z :=
  fold_left (fun '(i, o) '(ty, total) =>
               (if TxType_eqb ty IN then total else i,
                if TxType_eqb ty OUT then total else o)) rows (0, 0).

(** The entry of one month; [None] where [new Date(NaN, ...).toISOString()]
    would throw. *)
Definition month_stat (tz : Z) (walletId : option string) (txs : list Transaction.t)
  (month : string) : option MonthlyStat.t :=
  let startDate := month ++ "-01T00:00:00.000Z" in
  match map Number (split_dash month) with
  | Some y :: Some m :: _ =>
      let nextMonth := new_Date_local tz y m in
      let endDate := toISOString nextMonth in
      let '(totalIn, totalOut) := totals (month_rows walletId startDate endDate txs) in
      Some (MonthlyStat.mk month totalIn totalOut)
  | _ => None
  end.

Fixpoint all_some {A} (l : list (option A)) : option (list A) :=
  match l with
  | [] => Some []
  | Some x :: l' => option_map (cons x) (all_some l')
  | None :: _ => None
  end.

(** [getMonthlyStats(walletId)] on the [transactions] table, at time [now]
    in the time zone [tz]. *)
Definition getMonthlyStats (tz now : Z) (walletId : option string) (d : db)
  : option (list MonthlyStat.t) :=
  all_some (map (month_stat tz walletId (transactions d)) (stat_months tz now)).

(** The month [YYYY-MM] as the specification bounds it: from its first
    instant to the first instant of the next month, both in UTC. *)
Definition spec_month_total (ty : TxType) (month next : string)
  (txs : list Transaction.t) : Z :=
  fold_right (fun t acc => Transaction.amount t + acc) 0
    (filter (fun t => TxType_eqb (Transaction.type t) ty &&
                      String.leb (month ++ "-01T00:00:00.000Z") (Transaction.created_at t) &&
                      String.ltb (Transaction.created_at t) (next ++ "-01T00:00:00.000Z"))
       txs).

(** A ledger in Ho Chi Minh City (UTC+7): one income recorded by
    [createTransaction] at 03:00 local time on 1 April 2026, which is
    2026-03-31T20:00:00.000Z. *)
Definition tz_hcm : Z := 420.

Definition now_hcm : Z := days_from_civil 2026 4 15 * ms_per_day + 5 * 3600000.

Definition ledger_hcm : db :=
  mkdb [Wallet.mk "w-hcm" "Cash" 0 100 None (Some "Wallet") "2026-01-01T08:00:00.000Z"]
       [Transaction.mk "t-apr1" "w-hcm" IN 100 (Some "salary") None
          (toISOString (days_from_civil 2026 3 31 * ms_per_day + 20 * 3600000))].

(** ** The other functions of [queries.ts] *)

(** [v.toString(16)] for [0 <= v < 16]. *)
Definition hex_digit (v : Z) : ascii :=
  if (v <? 10)%Z then ascii_of_nat (48 + Z.to_nat v) else ascii_of_nat (87 + Z.to_nat v).

(** [generateUUID()]: [rnd i] is [(Math.random() * 16) | 0] at the [i]-th
    call of the replacement callback. *)
(** The characters [hex_digit] produces for a nibble. *)
Definition hex_chars : list ascii :=
  ["0"; "1"; "2"; "3"; "4"; "5"; "6"; "7"; "8"; "9"; "a"; "b"; "c"; "d"; "e"; "f"]%char.

Fixpoint replace_xy (s : string) (rnd : nat -> Z) (i : nat) : string :=
  match s with
  | "" => ""
  | String c s' =>
      if Ascii.eqb c "x"%char
      then String (hex_digit (rnd i)) (replace_xy s' rnd (S i))
      else if Ascii.eqb c "y"%char
      then String (hex_digit (Z.lor (Z.land (rnd i) 3) 8)) (replace_xy s' rnd (S i))
      else String c (replace_xy s' rnd i)
  end.

Definition generateUUID (rnd : nat -> Z) : string :=
  replace_xy "xxxxxxxx-xxxx-4xxx-yxxx-xxxxxxxxxxxx" rnd 0.

(** [createWallet(name, initialBalance, imageUri?, icon?)]; [id] and
    [createdAt] are the values of [generateUUID()] and [nowISO()]. *)
Definition createWallet (id createdAt name : string) (initialBalance : Z)
  (imageUri icon : option string) : M db Wallet.t :=
  let walletIcon := coalesce icon "Wallet" in
  insert_wallet_row
    (Wallet.mk id name initialBalance initialBalance imageUri (Some walletIcon) createdAt) ;;;
  ret (Wallet.mk id name initialBalance initialBalance imageUri (Some walletIcon) createdAt).

(** [SELECT * FROM wallets ORDER BY created_at DESC] *)
Definition select_wallets_desc : M db (list Wallet.t) :=
  fun d => (Ok (sort_by (fun a b => String.leb (Wallet.created_at b) (Wallet.created_at a))
                        (wallets d)), d).

(** [getAllWallets()] *)
Definition getAllWallets : M db (list Wallet.t) := select_wallets_desc.

(** [SELECT * FROM wallets WHERE id = ?] *)
Definition select_wallet_by_id (id : string) : M db (list Wallet.t) :=
  fun d => (Ok (filter (fun w => Wallet.id w =? id) (wallets d)), d).

(** [getWalletById(id)] *)
Definition getWalletById (id : string) : M db (option Wallet.t) :=
  rows <- select_wallet_by_id id ;;
  ret (match rows with [] => None | w :: _ => Some w end).

(** [SELECT type, COALESCE(SUM(amount), 0) as total FROM transactions
     [WHERE wallet_id = ?] GROUP BY type]: one row per type present. *)
Definition group_by_type (sel : list Transaction.t) : list (TxType * Z) :=
  flat_map (fun ty =>
              match filter (fun t => TxType_eqb (Transaction.type t) ty) sel with
              | [] => []
              | g => [(ty, fold_right (fun t acc => Transaction.amount t + acc) 0 g)]
              end) [IN; OUT].

(** The rows a [WHERE wallet_id = ?] keeps, or all of them without it. *)
Definition rows_of (walletId : option string) (txs : list Transaction.t)
  : list Transaction.t :=
  match walletId with
  | Some w => filter (fun t => Transaction.wallet_id t =? w) txs
  | None => txs
  end.

Definition select_totals_by_type (walletId : option string) : M db (list (TxType * Z)) :=
  fun d => (Ok (group_by_type (rows_of walletId (transactions d))), d).

(** [SELECT COUNT( * ) as cnt FROM transactions [WHERE wallet_id = ?]] *)
Definition select_count (walletId : option string) : M db (list Z) :=
  fun d => (Ok [Z.of_nat (length (rows_of walletId (transactions d)))], d).

Module OverallStat.
Record t := mk { totalIn : Z; totalOut : Z; txCount : Z }.
End OverallStat.

(** [getOverallStats(walletId?)]: the filtered query is chosen by
    [if (walletId)]. *)
Definition getOverallStats (walletId : option string) : M db OverallStat.t :=
  let filterId := if truthy walletId then Some (coalesce walletId "") else None in
  rows <- select_totals_by_type filterId ;;
  let tot := totals rows in
  countRows <- select_count filterId ;;
  ret (OverallStat.mk (fst tot) (snd tot) (first_or_zero countRows)).

(** [LIMIT n] of SQLite: a negative limit is no limit. *)
Definition sql_limit {A} (n : Z) (l : list A) : list A :=
  if (n <? 0)%Z then l else firstn (Z.to_nat n) l.

(** [getRecentTransactions(limit = 10)]: [SELECT * FROM transactions ORDER
    BY created_at DESC LIMIT ?]. *)
Definition getRecentTransactions (limit : Z) : M db (list Transaction.t) :=
  fun d => (Ok (sql_limit limit
                  (sort_by (fun a b => String.leb (Transaction.created_at b)
                                                  (Transaction.created_at a))
                           (transactions d))), d).

(** Every call of [queries.ts] that writes: the four reconciling mutations
    and [createWallet] (with the id [generateUUID()] gives), [deleteWallet],
    [updateWalletDirect]. *)
Inductive app_op :=
| OpMutation (m : mutation)
| OpCreateWallet (rnd : nat -> Z) (createdAt name : string) (initialBalance : Z)
    (imageUri icon : option string)
| OpDeleteWallet (id : string)
| OpUpdateWalletDirect (id name : string) (newCurrentBalance : Z) (icon : option string).

Definition run_op (o : app_op) : M db unit :=
  match o with
  | OpMutation m => run_mutation m
  | OpCreateWallet rnd createdAt name ib img icon =>
      createWallet (generateUUID rnd) createdAt name ib img icon ;;; ret tt
  | OpDeleteWallet id => deleteWallet id
  | OpUpdateWalletDirect id name cb icon => updateWalletDirect id name cb icon
  end.

Definition run_ops (os : list app_op) (d : db) : db :=
  fold_left (fun d o => after (run_op o) d) os d.

(** ** Image files of the backup service *)

(** [s.split(c)]: the pieces between the occurrences of [c]. *)
Fixpoint split_char (c : ascii) (s : string) : list string :=
  match s with
  | "" => [""]
  | String x s' =>
      let parts := split_char c s' in
      if Ascii.eqb x c then "" :: parts
      else match parts with
           | p :: ps => String x p :: ps
           | [] => [String x ""]
           end
  end.

(** [arr.pop()], read-only: the last element, [undefined] for []. *)
Fixpoint last_opt {A} (l : list A) : option A :=
  match l with
  | [] => None
  | [x] => Some x
  | _ :: l' => last_opt l'
  end.

Section ImageFiles.

(** [RNFS.DocumentDirectoryPath], and [String.prototype.toLowerCase]. *)
Variable DocumentDirectoryPath : string.
Variable toLowerCase : string -> string.

(** [tempUri.split('.').pop()?.toLowerCase() || 'jpg'] *)
Definition image_ext (tempUri : string) : string :=
  match option_map toLowerCase (last_opt (split_char "." tempUri)) with
  | Some e => if e =? "" then "jpg" else e
  | None => "jpg"
  end.




End ImageFiles.

(** ** Amount formatting *)










(** ** Concrete ledgers for the examples *)

Definition wallet_main : Wallet.t :=
  Wallet.mk "w-main" "Main" 100000 250000
    (Some "/files/liquidmoney_images/wallet_1739000000000_k3j9xa.jpg")
    (Some "PiggyBank") "2026-01-01T08:00:00.000Z".

(** The scenario of inverse reconciliation: [SUM(IN) = 200000],
    [SUM(OUT) = 50000]. *)
Definition ledger_main : db :=
  mkdb [wallet_main]
       [Transaction.mk "t-in" "w-main" IN 200000 (Some "salary") None
          "2026-01-02T08:00:00.000Z";
        Transaction.mk "t-out" "w-main" OUT 50000 (Some "food") None
          "2026-01-03T08:00:00.000Z"].

(** A document whose wallet carries a [current_balance] (999) that does not
    match its [initial_balance] and transactions (100000 + 50000). *)
Definition doc_stale_balance : ExportData.t :=
  ExportData.mk
    [Wallet.mk "w1" "Cash" 100000 999 None (Some "Wallet") "2026-01-01T08:00:00.000Z"]
    [Transaction.mk "t1" "w1" IN 50000 None None "2026-01-02T08:00:00.000Z"].

(** A document (for instance hand-edited, as the import allows) with a
    wallet whose id is the empty string, holding one transaction. *)
Definition doc_empty_id : ExportData.t :=
  ExportData.mk
    [Wallet.mk "" "Imported" 0 0 None (Some "Wallet") "2026-01-01T08:00:00.000Z";
     Wallet.mk "w2" "Bank" 0 0 None (Some "Wallet") "2026-01-01T09:00:00.000Z"]
    [Transaction.mk "t1" "" IN 100 None None "2026-01-02T08:00:00.000Z"].

(** [ledger_main] with the image file of its wallet on disk, under the
    name [saveImageToLocal] gave it. *)
Definition sys_main : sys :=
  mksys ledger_main
    (fun p => if p =? "/files/liquidmoney_images/wallet_1739000000000_k3j9xa.jpg"
              then Some "/9j/4AAQSkZJRgABAQ==" else None).

Definition empty_db : db := mkdb [] [].


(** ** Lemmas on the statements *)

Lemma recalculateBalance_eq (wid : string) (d : db) :
  recalculateBalance wid d =
  (Ok tt, match map Wallet.initial_balance
                  (filter (fun w => Wallet.id w =? wid) (wallets d)) with
          | [] => d
          | ib :: _ =>
              map_wallets
                (set_current_balance
                   (ib + sum_amount (transactions d) wid IN
                    - sum_amount (transactions d) wid OUT)) wid d
          end).
Proof.
  unfold recalculateBalance, bind, select_initial_balance.
  destruct (map _ _); reflexivity.
Qed.

Lemma filter_map_if (f : Wallet.t -> Wallet.t) (wid : string) (l : list Wallet.t) :
  (forall w, Wallet.id (f w) = Wallet.id w) ->
  filter (fun w => Wallet.id w =? wid)
    (map (fun w => if Wallet.id w =? wid then f w else w) l) =
  map f (filter (fun w => Wallet.id w =? wid) l).
Proof.
  intros Hid. induction l as [|w l IH]; simpl; [reflexivity|].
  destruct (Wallet.id w =? wid) eqn:E; simpl.
  - rewrite Hid, E. simpl. now rewrite IH.
  - rewrite E. exact IH.
Qed.

Lemma map_if_compose (f g : Wallet.t -> Wallet.t) (wid : string) (l : list Wallet.t) :
  (forall w, Wallet.id (f w) = Wallet.id w) ->
  map (fun w => if Wallet.id w =? wid then g w else w)
    (map (fun w => if Wallet.id w =? wid then f w else w) l) =
  map (fun w => if Wallet.id w =? wid then g (f w) else w) l.
Proof.
  intros Hid. induction l as [|w l IH]; simpl; [reflexivity|].
  rewrite IH. destruct (Wallet.id w =? wid) eqn:E; [rewrite Hid, E|rewrite E]; reflexivity.
Qed.

Lemma in_map_wallets (f : Wallet.t -> Wallet.t) (wid : string) (d : db) (w' : Wallet.t) :
  In w' (wallets (map_wallets f wid d)) ->
  exists w, In w (wallets d) /\
            w' = (if Wallet.id w =? wid then f w else w).
Proof.
  unfold map_wallets; simpl. intros H. apply in_map_iff in H.
  destruct H as [w [Hw Hin]]. exists w. split; [exact Hin | now rewrite Hw].
Qed.

Lemma map_wallets_initials (f : Wallet.t -> Wallet.t) (wid : string) (d : db) :
  (forall w, Wallet.id (f w) = Wallet.id w) ->
  (forall w, Wallet.initial_balance (f w) = Wallet.initial_balance w) ->
  map Wallet.initial_balance
    (filter (fun w => Wallet.id w =? wid) (wallets (map_wallets f wid d))) =
  map Wallet.initial_balance (filter (fun w => Wallet.id w =? wid) (wallets d)).
Proof.
  intros Hid Hib. unfold map_wallets; cbn [wallets].
  rewrite filter_map_if by exact Hid. rewrite map_map.
  apply map_ext. exact Hib.
Qed.

Lemma map_wallets_twice (f g : Wallet.t -> Wallet.t) (wid : string) (d : db) :
  (forall w, Wallet.id (f w) = Wallet.id w) ->
  map_wallets g wid (map_wallets f wid d) = map_wallets (fun w => g (f w)) wid d.
Proof.
  intros Hid. unfold map_wallets at 1 2 3; cbn [wallets transactions].
  rewrite map_if_compose by exact Hid. reflexivity.
Qed.

Lemma map_wallets_absent (f : Wallet.t -> Wallet.t) (wid : string) (d : db) :
  filter (fun w => Wallet.id w =? wid) (wallets d) = [] ->
  map_wallets f wid d = d.
Proof.
  destruct d as [ws txs]. unfold map_wallets; cbn [wallets transactions].
  intros H. f_equal. induction ws as [|w ws IH]; [reflexivity|].
  cbn [filter] in H. cbn [map].
  destruct (Wallet.id w =? wid); [discriminate|]. now rewrite IH.
Qed.

(** Whatever the state, [recalculateBalance] succeeds and only writes
    [current_balance] of the rows of its wallet. *)
Lemma recalculateBalance_shape (wid : string) (d : db) :
  fst (recalculateBalance wid d) = Ok tt /\
  exists b, after (recalculateBalance wid) d = map_wallets (set_current_balance b) wid d.
Proof.
  unfold after. rewrite recalculateBalance_eq. cbn [fst snd]. split; [reflexivity|].
  destruct (filter (fun w => Wallet.id w =? wid) (wallets d)) eqn:E.
  - exists 0. cbn [map]. symmetry. now apply map_wallets_absent.
  - eexists. reflexivity.
Qed.

(** ** Forward reconciliation is idempotent *)

(** C7: calling [recalculateBalance] a second time, with no mutation in
    between, succeeds and leaves the state (hence every [current_balance])
    as the first call left it. *)
Theorem recalculateBalance_idempotent (walletId : string) (d : db) :
  recalculateBalance walletId (after (recalculateBalance walletId) d) =
  (Ok tt, after (recalculateBalance walletId) d).
Proof.
  unfold after.
  destruct (map Wallet.initial_balance
              (filter (fun w => Wallet.id w =? walletId) (wallets d))) as [|ib rest] eqn:E.
  - assert (H : recalculateBalance walletId d = (Ok tt, d))
      by (rewrite recalculateBalance_eq, E; reflexivity).
    rewrite H. exact H.
  - set (nb := ib + sum_amount (transactions d) walletId IN
               - sum_amount (transactions d) walletId OUT).
    assert (H : recalculateBalance walletId d =
                (Ok tt, map_wallets (set_current_balance nb) walletId d))
      by (rewrite recalculateBalance_eq, E; reflexivity).
    rewrite H. cbn [snd]. rewrite recalculateBalance_eq.
    rewrite map_wallets_initials by reflexivity. rewrite E.
    cbn [transactions map_wallets]. fold nb.
    rewrite map_wallets_twice by reflexivity. reflexivity.
Qed.

(** ** Inverse reconciliation *)

(** C2: on an existing wallet, [updateWalletDirect(id, name, X)] leaves the
    transactions untouched and stores, in the wallet's row,
    [initial_balance = X - SUM(IN) + SUM(OUT)] and [current_balance = X];
    the forward formula from the new [initial_balance] gives [X] again. *)
Theorem updateWalletDirect_spec (d : db) (w : Wallet.t) (name : string)
  (X : Z) (icon : option string) :
  In w (wallets d) ->
  let d' := after (updateWalletDirect (Wallet.id w) name X icon) d in
  fst (updateWalletDirect (Wallet.id w) name X icon d) = Ok tt /\
  transactions d' = transactions d /\
  (exists w', In w' (wallets d') /\ Wallet.id w' = Wallet.id w) /\
  forall w', In w' (wallets d') -> Wallet.id w' = Wallet.id w ->
    Wallet.initial_balance w' =
      X - sum_amount (transactions d) (Wallet.id w) IN
        + sum_amount (transactions d) (Wallet.id w) OUT /\
    Wallet.current_balance w' = X /\
    balanced (transactions d') w'.
Proof.
  intros Hin d'. subst d'. unfold after, updateWalletDirect, bind, select_total,
    update_wallet_direct_row; simpl.
  split; [reflexivity|]. split; [reflexivity|]. split.
  - eexists. split.
    + unfold map_wallets; simpl. apply in_map_iff. exists w. split; [|exact Hin].
      rewrite String.eqb_refl. reflexivity.
    + reflexivity.
  - intros w' Hw' Hid. apply in_map_wallets in Hw'.
    destruct Hw' as [v [Hv ->]].
    destruct (Wallet.id v =? Wallet.id w) eqn:E.
    + apply String.eqb_eq in E. unfold balanced; simpl. rewrite E. lia.
    + simpl in Hid. apply String.eqb_neq in E. contradiction.
Qed.

(** ** Deleting a wallet *)

Lemma filter_none_of (wid : string) (ft : option TxType) (txs : list Transaction.t) :
  (forall t, In t txs -> Transaction.wallet_id t <> wid) ->
  filter (fun t => (Transaction.wallet_id t =? wid) &&
                   match ft with
                   | Some k => TxType_eqb (Transaction.type t) k
                   | None => true
                   end) txs = [].
Proof.
  intros H. induction txs as [|t txs IH]; [reflexivity|].
  cbn [filter]. destruct (Transaction.wallet_id t =? wid) eqn:E.
  - apply String.eqb_eq in E. exfalso. apply (H t); [left; reflexivity | exact E].
  - cbn [andb]. apply IH. intros t' Ht'. apply H. right. exact Ht'.
Qed.

(** C8: [deleteWallet(id)] removes the wallet's row and, by the cascade of
    the foreign key, every transaction row of the wallet; a later
    [getTransactionsByWallet(id)] (with or without a type filter) returns the
    empty list; every other row is kept as it was (no reconciliation). *)
Theorem deleteWallet_cascade (d : db) (id : string) :
  let d' := after (deleteWallet id) d in
  fst (deleteWallet id d) = Ok tt /\
  wallets d' = filter (fun w => negb (Wallet.id w =? id)) (wallets d) /\
  transactions d' =
    filter (fun t => negb (Transaction.wallet_id t =? id)) (transactions d) /\
  (forall w, In w (wallets d') -> Wallet.id w <> id) /\
  (forall t, In t (transactions d') -> Transaction.wallet_id t <> id) /\
  (forall filterType, getTransactionsByWallet id filterType d' = (Ok [], d')).
Proof.
  intros d'.
  assert (Htx : forall t, In t (transactions d') -> Transaction.wallet_id t <> id).
  { intros t Ht. subst d'. unfold after, deleteWallet, delete_wallet_row in Ht.
    cbn [snd transactions] in Ht. apply filter_In in Ht. destruct Ht as [_ Ht].
    apply negb_true_iff, String.eqb_neq in Ht. exact Ht. }
  split; [reflexivity|]. split; [reflexivity|]. split; [reflexivity|]. split.
  - intros w Hw. subst d'. unfold after, deleteWallet, delete_wallet_row in Hw.
    cbn [snd wallets] in Hw. apply filter_In in Hw. destruct Hw as [_ Hw].
    apply negb_true_iff, String.eqb_neq in Hw. exact Hw.
  - split; [exact Htx|]. intros ft.
    unfold getTransactionsByWallet, select_transactions_of.
    rewrite filter_none_of by exact Htx. reflexivity.
Qed.

(** ** [updateWallet] with the optional arguments omitted *)

(** C10: [updateWallet(id, name, initialBalance)] on an existing wallet,
    with [imageUri] and [icon] omitted, stores [image_uri = null] and
    [icon = 'Wallet'] in the wallet's row, whatever they were before. *)
Theorem updateWallet_omitted_optionals (d : db) (w : Wallet.t) (name : string)
  (initialBalance : Z) :
  In w (wallets d) ->
  let d' := after (updateWallet (Wallet.id w) name initialBalance None None) d in
  (exists w', In w' (wallets d') /\ Wallet.id w' = Wallet.id w) /\
  forall w', In w' (wallets d') -> Wallet.id w' = Wallet.id w ->
    Wallet.image_uri w' = None /\ Wallet.icon w' = Some "Wallet".
Proof.
  intros Hin d'. subst d'. unfold after, updateWallet, bind, update_wallet_row.
  cbn [fst snd]. cbn [coalesce].
  set (d1 := map_wallets _ (Wallet.id w) d).
  destruct (recalculateBalance_shape (Wallet.id w) d1) as [_ [b Hb]].
  unfold after in Hb. destruct (recalculateBalance (Wallet.id w) d1) as [r d2].
  cbn [snd] in Hb |- *. subst d2. split.
  - eexists. split.
    + unfold map_wallets at 1; cbn [wallets]. apply in_map_iff.
      eexists. split; [reflexivity|].
      unfold d1, map_wallets; cbn [wallets]. apply in_map_iff.
      exists w. split; [|exact Hin]. rewrite String.eqb_refl. reflexivity.
    + cbn [Wallet.id]. rewrite String.eqb_refl. reflexivity.
  - intros w' Hw' Hid. apply in_map_wallets in Hw'.
    destruct Hw' as [v [Hv ->]]. unfold d1 in Hv. apply in_map_wallets in Hv.
    destruct Hv as [u [_ ->]].
    destruct (Wallet.id u =? Wallet.id w) eqn:E.
    + cbn [Wallet.id]. rewrite E. split; reflexivity.
    + exfalso. rewrite E in Hid. cbn [Wallet.id] in Hid.
      rewrite ?E in Hid. apply String.eqb_neq in E. exact (E Hid).
Qed.

(** ** Preservation of the forward invariant *)

Lemma filter_key_at_most_one {A} (key : A -> string) (k : string) (l : list A) :
  NoDup (map key l) ->
  filter (fun x => key x =? k) l = [] \/ exists x, filter (fun x => key x =? k) l = [x].
Proof.
  induction l as [|x l IH]; intros Hnd; [left; reflexivity|].
  cbn [map] in Hnd. inversion Hnd as [|? ? Hnin Hnd']; subst.
  cbn [filter]. destruct (key x =? k) eqn:E.
  - right. exists x. f_equal. apply String.eqb_eq in E. subst k.
    destruct (filter (fun y => key y =? key x) l) as [|y l'] eqn:F; [reflexivity|].
    exfalso. apply Hnin.
    assert (Hy : In y (filter (fun y => key y =? key x) l)) by (rewrite F; left; reflexivity).
    apply filter_In in Hy. destruct Hy as [Hy Hk]. apply String.eqb_eq in Hk.
    rewrite <- Hk. apply in_map. exact Hy.
  - apply IH. exact Hnd'.
Qed.

Lemma in_singleton_filter {A} (key : A -> string) (k : string) (l : list A) (x y : A) :
  filter (fun x => key x =? k) l = [x] -> In y l -> key y = k -> y = x.
Proof.
  intros F Hy Hk.
  assert (H : In y (filter (fun x => key x =? k) l))
    by (apply filter_In; split; [exact Hy | apply String.eqb_eq; exact Hk]).
  rewrite F in H. destruct H as [H|[]]. symmetry. exact H.
Qed.

Lemma not_in_empty_filter {A} (key : A -> string) (k : string) (l : list A) (y : A) :
  filter (fun x => key x =? k) l = [] -> In y l -> key y <> k.
Proof.
  intros F Hy Hk.
  assert (H : In y (filter (fun x => key x =? k) l))
    by (apply filter_In; split; [exact Hy | apply String.eqb_eq; exact Hk]).
  rewrite F in H. destruct H.
Qed.

Lemma sum_amount_app (txs1 txs2 : list Transaction.t) (wid : string) (ty : TxType) :
  sum_amount (txs1 ++ txs2) wid ty = sum_amount txs1 wid ty + sum_amount txs2 wid ty.
Proof.
  unfold sum_amount. induction txs1 as [|t txs1 IH]; cbn [app fold_right]; [reflexivity|].
  rewrite IH. destruct (_ && _); lia.
Qed.

Lemma sum_amount_map_frame (f : Transaction.t -> Transaction.t)
  (txs : list Transaction.t) (wid : string) (ty : TxType) :
  (forall t, In t txs -> f t = t \/
     (Transaction.wallet_id t <> wid /\ Transaction.wallet_id (f t) <> wid)) ->
  sum_amount (map f txs) wid ty = sum_amount txs wid ty.
Proof.
  unfold sum_amount. induction txs as [|t txs IH]; intros H; [reflexivity|].
  cbn [map fold_right]. rewrite IH by (intros; apply H; right; assumption).
  destruct (H t (or_introl eq_refl)) as [-> | [H1 H2]]; [reflexivity|].
  apply String.eqb_neq in H1, H2. rewrite H1, H2. reflexivity.
Qed.

Lemma sum_amount_filter_frame (p : Transaction.t -> bool)
  (txs : list Transaction.t) (wid : string) (ty : TxType) :
  (forall t, In t txs -> p t = false -> Transaction.wallet_id t <> wid) ->
  sum_amount (filter p txs) wid ty = sum_amount txs wid ty.
Proof.
  unfold sum_amount. induction txs as [|t txs IH]; intros H; [reflexivity|].
  cbn [filter fold_right]. rewrite <- IH by (intros; apply H; [right|]; assumption).
  destruct (p t) eqn:E; [reflexivity|].
  assert (Hw : Transaction.wallet_id t <> wid) by (apply H; [left; reflexivity | exact E]).
  apply String.eqb_neq in Hw. rewrite Hw. reflexivity.
Qed.

Lemma map_wallets_ids (f : Wallet.t -> Wallet.t) (wid : string) (d : db) :
  (forall w, Wallet.id (f w) = Wallet.id w) ->
  map Wallet.id (wallets (map_wallets f wid d)) = map Wallet.id (wallets d).
Proof.
  intros Hid. unfold map_wallets; cbn [wallets]. rewrite map_map.
  apply map_ext. intros w. destruct (Wallet.id w =? wid); [apply Hid|reflexivity].
Qed.

Lemma recalculateBalance_frame (wid : string) (d : db) :
  map Wallet.id (wallets (after (recalculateBalance wid) d)) = map Wallet.id (wallets d) /\
  transactions (after (recalculateBalance wid) d) = transactions d.
Proof.
  destruct (recalculateBalance_shape wid d) as [_ [b ->]].
  split; [apply map_wallets_ids; reflexivity | reflexivity].
Qed.

Lemma ok_except_recalc (R : list string) (wid : string) (d : db) :
  NoDup (map Wallet.id (wallets d)) -> ok_except R d ->
  ok_except (filter (fun x => negb (x =? wid)) R) (after (recalculateBalance wid) d).
Proof.
  intros Hnd Hok. unfold after. rewrite recalculateBalance_eq. cbn [snd].
  unfold ok_except in *. rewrite Forall_forall in *.
  destruct (filter_key_at_most_one Wallet.id wid (wallets d) Hnd) as [F | [w0 F]];
    rewrite F; cbn [map].
  - intros w Hw. destruct (Hok w Hw) as [HR | Hb]; [left | right; exact Hb].
    apply filter_In. split; [exact HR|]. apply negb_true_iff, String.eqb_neq.
    exact (not_in_empty_filter Wallet.id wid (wallets d) w F Hw).
  - unfold map_wallets; cbn [wallets transactions]. intros w' Hw'.
    apply in_map_iff in Hw'. destruct Hw' as [w [<- Hw]].
    destruct (Wallet.id w =? wid) eqn:E.
    + right. apply String.eqb_eq in E.
      pose proof (in_singleton_filter Wallet.id wid (wallets d) w0 w F Hw E). subst w.
      unfold balanced, set_current_balance; cbn [Wallet.id Wallet.current_balance
        Wallet.initial_balance]. rewrite E. lia.
    + destruct (Hok w Hw) as [HR | Hb]; [left | right; exact Hb].
      apply filter_In. split; [exact HR|]. rewrite E. reflexivity.
Qed.

Lemma ok_except_finish (R : list string) (d : db) :
  (forall x, In x R -> ~ In x (map Wallet.id (wallets d))) ->
  ok_except R d -> consistent d.
Proof.
  intros Habs Hok. unfold ok_except, consistent in *. rewrite Forall_forall in *.
  intros w Hw. destruct (Hok w Hw) as [HR | Hb]; [|exact Hb].
  exfalso. apply (Habs _ HR). apply in_map. exact Hw.
Qed.

Lemma ok_except_frame (R : list string) (d : db) (txs' : list Transaction.t) :
  consistent d ->
  (forall w, In w (wallets d) -> ~ In (Wallet.id w) R ->
     forall ty, sum_amount txs' (Wallet.id w) ty =
                sum_amount (transactions d) (Wallet.id w) ty) ->
  ok_except R (mkdb (wallets d) txs').
Proof.
  intros Hc Hs. unfold ok_except, consistent in *. rewrite Forall_forall in *.
  cbn [wallets transactions]. intros w Hw.
  destruct (in_dec String.string_dec (Wallet.id w) R) as [HR|HR]; [left; exact HR|].
  right. unfold balanced. rewrite (Hs w Hw HR IN), (Hs w Hw HR OUT). apply Hc. exact Hw.
Qed.

(** Unfolding one statement at a time. *)

Lemma bind_ret {S A B} (a : A) (k : A -> M S B) (s : S) : bind (ret a) k s = k a s.
Proof. reflexivity. Qed.

Lemma bind_recalculateBalance {A} (wid : string) (k : unit -> M db A) (d : db) :
  bind (recalculateBalance wid) k d = k tt (after (recalculateBalance wid) d).
Proof.
  unfold bind, after. destruct (recalculateBalance_shape wid d) as [Hok _].
  destruct (recalculateBalance wid d) as [r d']. cbn [fst snd] in *. subst r.
  reflexivity.
Qed.

Lemma bind_select_wallet_id {A} (tid : string) (k : list string -> M db A) (d : db) :
  bind (select_wallet_id tid) k d =
  k (map Transaction.wallet_id (filter (fun t => Transaction.id t =? tid) (transactions d))) d.
Proof. reflexivity. Qed.

Lemma bind_insert_transaction_row {A} (t : Transaction.t) (k : unit -> M db A) (d : db) :
  bind (insert_transaction_row t) k d =
  if transaction_exists (Transaction.id t) d then (Throw SqlitePrimaryKey, d)
  else if negb (wallet_exists (Transaction.wallet_id t) d) then (Throw SqliteForeignKey, d)
  else k tt (mkdb (wallets d) (transactions d ++ [t])).
Proof.
  unfold bind, insert_transaction_row.
  destruct (transaction_exists _ d); [reflexivity|].
  destruct (negb _); reflexivity.
Qed.

Lemma bind_update_transaction_row {A} (tid wid : string) (ty : TxType) (amount : Z)
  (reason img : option string) (k : unit -> M db A) (d : db) :
  bind (update_transaction_row tid wid ty amount reason img) k d =
  if transaction_exists tid d && negb (wallet_exists wid d)
  then (Throw SqliteForeignKey, d)
  else k tt (mkdb (wallets d)
               (map (fun t => if Transaction.id t =? tid
                              then Transaction.mk (Transaction.id t) wid ty amount
                                     reason img (Transaction.created_at t)
                              else t) (transactions d))).
Proof.
  unfold bind, update_transaction_row. destruct (_ && _); reflexivity.
Qed.

Lemma bind_delete_transaction_row {A} (tid : string) (k : unit -> M db A) (d : db) :
  bind (delete_transaction_row tid) k d =
  k tt (mkdb (wallets d) (filter (fun t => negb (Transaction.id t =? tid)) (transactions d))).
Proof. reflexivity. Qed.

Lemma bind_update_wallet_row {A} (name : string) (ib : Z) (img icon : option string)
  (wid : string) (k : unit -> M db A) (d : db) :
  bind (update_wallet_row name ib img icon wid) k d =
  k tt (map_wallets (fun w => Wallet.mk (Wallet.id w) name ib (Wallet.current_balance w)
                                img icon (Wallet.created_at w)) wid d).
Proof. reflexivity. Qed.

Lemma recalculateBalance_keys (wid : string) (d : db) :
  keys_unique d -> ~ In "" (map Wallet.id (wallets d)) ->
  keys_unique (after (recalculateBalance wid) d) /\
  ~ In "" (map Wallet.id (wallets (after (recalculateBalance wid) d))).
Proof.
  destruct (recalculateBalance_frame wid d) as [Hid Htx].
  unfold keys_unique. rewrite Hid, Htx. tauto.
Qed.

(** Reconciling the only wallet left to reconcile restores the invariant. *)
Lemma recalculateBalance_closes (wid : string) (d : db) :
  NoDup (map Wallet.id (wallets d)) -> ok_except [wid] d ->
  consistent (after (recalculateBalance wid) d).
Proof.
  intros Hnd Hok. apply (ok_except_finish []); [intros x []|].
  pose proof (ok_except_recalc [wid] wid d Hnd Hok) as H.
  cbn [filter] in H. rewrite String.eqb_refl in H. exact H.
Qed.

Lemma NoDup_snoc {A} (l : list A) (x : A) : NoDup l -> ~ In x l -> NoDup (l ++ [x]).
Proof.
  intros Hnd Hx. apply (Permutation_NoDup (l := x :: l)).
  - apply Permutation_cons_append.
  - constructor; assumption.
Qed.

Lemma NoDup_map_filter {A K} (key : A -> K) (keep : A -> bool) (rows : list A) :
  NoDup (map key rows) -> NoDup (map key (filter keep rows)).
Proof.
  induction rows as [|x rows IH]; intros Hnd; [constructor|].
  cbn [map] in Hnd. inversion Hnd as [|? ? Hx Hnd']; subst.
  cbn [filter]. destruct (keep x); [|apply IH; exact Hnd'].
  cbn [map]. constructor; [|apply IH; exact Hnd'].
  intros Hin. apply Hx. apply in_map_iff in Hin. destruct Hin as [y [Hy Hin]].
  apply filter_In in Hin. rewrite <- Hy. apply in_map. apply Hin.
Qed.

Lemma bind_assoc {S A B C} (m : M S A) (k1 : A -> M S B) (k2 : B -> M S C) (s : S) :
  bind (bind m k1) k2 s = bind m (fun a => bind (k1 a) k2) s.
Proof. unfold bind. destruct (m s) as [[a|e] s']; reflexivity. Qed.

Ltac step_db :=
  repeat (first [ rewrite bind_assoc
                | rewrite bind_ret
                | rewrite bind_recalculateBalance
                | rewrite bind_select_wallet_id
                | rewrite bind_insert_transaction_row
                | rewrite bind_update_transaction_row
                | rewrite bind_delete_transaction_row
                | rewrite bind_update_wallet_row ]; cbv beta).

Lemma existsb_key_false {A} (key : A -> string) (k : string) (l : list A) :
  existsb (fun x => key x =? k) l = false -> ~ In k (map key l).
Proof.
  intros H Hin. apply in_map_iff in Hin. destruct Hin as [x [Hx Hin]].
  assert (E : existsb (fun x => key x =? k) l = true)
    by (apply existsb_exists; exists x; split; [exact Hin | apply String.eqb_eq; exact Hx]).
  congruence.
Qed.

Lemma updateWallet_ledger_ok (id name : string) (ib : Z) (img icon : option string) (d : db) :
  ledger_ok d -> ledger_ok (after (updateWallet id name ib img icon) d).
Proof.
  intros [Hk [He Hc]]. unfold after, updateWallet. step_db.
  set (d1 := map_wallets _ id d).
  change (snd (recalculateBalance id d1)) with (after (recalculateBalance id) d1).
  assert (Hid : map Wallet.id (wallets d1) = map Wallet.id (wallets d))
    by (apply map_wallets_ids; reflexivity).
  assert (Hk1 : keys_unique d1) by (unfold keys_unique in *; rewrite Hid; exact Hk).
  assert (He1 : ~ In "" (map Wallet.id (wallets d1))) by (rewrite Hid; exact He).
  destruct (recalculateBalance_keys id d1 Hk1 He1) as [Hk2 He2].
  split; [exact Hk2|]. split; [exact He2|].
  apply recalculateBalance_closes; [apply Hk1|].
  unfold ok_except. rewrite Forall_forall. intros w' Hw'.
  apply in_map_wallets in Hw'. destruct Hw' as [w [Hw ->]].
  destruct (Wallet.id w =? id) eqn:E.
  - left. cbn [Wallet.id]. apply String.eqb_eq in E. left. symmetry. exact E.
  - right. unfold consistent in Hc. rewrite Forall_forall in Hc. exact (Hc w Hw).
Qed.

Lemma createTransaction_ledger_ok (id createdAt wid : string) (ty : TxType) (amount : Z)
  (reason img : option string) (d : db) :
  ledger_ok d ->
  ledger_ok (after (run_mutation (CreateTransaction id createdAt wid ty amount reason img)) d).
Proof.
  intros [Hk [He Hc]]. unfold after, run_mutation, createTransaction. step_db.
  cbn [Transaction.id Transaction.wallet_id].
  destruct (transaction_exists id d) eqn:Ex; [split; [|split]; assumption|].
  destruct (negb (wallet_exists wid d)); [split; [|split]; assumption|].
  set (t := Transaction.mk id wid ty amount reason img createdAt).
  set (d1 := mkdb (wallets d) (transactions d ++ [t])).
  change (snd (ret tt (after (recalculateBalance wid) d1)))
    with (after (recalculateBalance wid) d1).
  assert (Hk1 : keys_unique d1).
  { destruct Hk as [Hw Ht]. split; [exact Hw|]. cbn [d1 transactions].
    rewrite map_app. apply NoDup_snoc; [exact Ht|].
    apply (existsb_key_false Transaction.id). exact Ex. }
  destruct (recalculateBalance_keys wid d1 Hk1 He) as [Hk2 He2].
  split; [exact Hk2|]. split; [exact He2|].
  apply recalculateBalance_closes; [apply Hk1|].
  apply ok_except_frame; [exact Hc|]. intros w _ Hnot ty'.
  rewrite sum_amount_app. cbn [sum_amount fold_right t Transaction.wallet_id].
  destruct (wid =? Wallet.id w) eqn:E.
  - apply String.eqb_eq in E. exfalso. apply Hnot. left. exact E.
  - cbn [andb]. lia.
Qed.

Lemma map_id_update_transaction (tid wid : string) (ty : TxType) (amount : Z)
  (reason img : option string) (txs : list Transaction.t) :
  map Transaction.id
    (map (fun t => if Transaction.id t =? tid
                   then Transaction.mk (Transaction.id t) wid ty amount
                          reason img (Transaction.created_at t)
                   else t) txs) = map Transaction.id txs.
Proof.
  rewrite map_map. apply map_ext. intros t. destruct (Transaction.id t =? tid); reflexivity.
Qed.

(** [updateTransaction] keeps the invariant, provided no wallet has the
    empty string as id (see [updateTransaction_misses_empty_id_wallet]). *)
Lemma updateTransaction_ledger_ok (tid wid : string) (ty : TxType) (amount : Z)
  (reason img : option string) (d : db) :
  ledger_ok d -> ledger_ok (after (updateTransaction tid wid ty amount reason img) d).
Proof.
  intros [Hk [He Hc]]. unfold after, updateTransaction. step_db.
  destruct (transaction_exists tid d && negb (wallet_exists wid d));
    [split; [|split]; assumption|].
  step_db.
  set (f := fun t => if Transaction.id t =? tid
                     then Transaction.mk (Transaction.id t) wid ty amount
                            reason img (Transaction.created_at t)
                     else t).
  set (d1 := mkdb (wallets d) (map f (transactions d))).
  assert (Hk1 : keys_unique d1).
  { destruct Hk as [Hw Ht]. split; [exact Hw|]. cbn [d1 transactions].
    unfold f. rewrite map_id_update_transaction. exact Ht. }
  destruct (recalculateBalance_keys wid d1 Hk1 He) as [Hk2 He2].
  destruct (recalculateBalance_frame wid d1) as [Hid2 _].
  set (d2 := after (recalculateBalance wid) d1) in *.
  destruct Hk as [_ Htu].
  destruct (filter_key_at_most_one Transaction.id tid (transactions d) Htu)
    as [F | [t0 F]]; rewrite F; cbn [map].
  - (* no row has this id: nothing moves *)
    cbn [truthy andb]. unfold ret; cbn [snd].
    split; [exact Hk2|]. split; [exact He2|].
    apply recalculateBalance_closes; [apply Hk1|].
    apply ok_except_frame; [exact Hc|]. intros w _ _ ty'.
    apply sum_amount_map_frame. intros t Ht. left. unfold f.
    destruct (Transaction.id t =? tid) eqn:E; [|reflexivity].
    apply String.eqb_eq in E. exfalso.
    exact (not_in_empty_filter Transaction.id tid (transactions d) t F Ht E).
  - (* the row [t0] moves from [wallet_id t0] to [wid] *)
    set (o := Transaction.wallet_id t0).
    assert (Hok1 : ok_except [wid; o] d1).
    { apply ok_except_frame; [exact Hc|]. intros w _ Hnot ty'.
      apply sum_amount_map_frame. intros t Ht. unfold f.
      destruct (Transaction.id t =? tid) eqn:E; [|left; reflexivity].
      right. apply String.eqb_eq in E.
      pose proof (in_singleton_filter Transaction.id tid (transactions d) t0 t F Ht E).
      subst t. cbn [Transaction.wallet_id]. split; intros Heq; apply Hnot.
      - right; left. exact Heq.
      - left. exact Heq. }
    pose proof (ok_except_recalc [wid; o] wid d1 (proj1 Hk1) Hok1) as Hok2.
    fold d2 in Hok2.
    cbn [coalesce].
    destruct (truthy (Some o) && negb (o =? wid)) eqn:G.
    + destruct (recalculateBalance_keys o d2 Hk2 He2) as [Hk3 He3].
      split; [exact Hk3|]. split; [exact He3|].
      apply (ok_except_finish (filter (fun x => negb (x =? o))
                                 (filter (fun x => negb (x =? wid)) [wid; o]))).
      * intros x Hx. apply filter_In in Hx. destruct Hx as [Hx Hxo].
        apply filter_In in Hx. destruct Hx as [Hx Hxw].
        apply negb_true_iff, String.eqb_neq in Hxo, Hxw.
        destruct Hx as [Hx|[Hx|[]]]; subst x; contradiction.
      * apply ok_except_recalc; [apply Hk2 | exact Hok2].
    + unfold ret; cbn [snd].
      split; [exact Hk2|]. split; [exact He2|].
      apply (ok_except_finish (filter (fun x => negb (x =? wid)) [wid; o])); [|exact Hok2].
      intros x Hx. apply filter_In in Hx. destruct Hx as [Hx Hxw].
      apply negb_true_iff, String.eqb_neq in Hxw.
      destruct Hx as [Hx|[Hx|[]]]; [subst x; contradiction|]. subst x.
      cbn [truthy] in G. apply andb_false_iff in G. destruct G as [G|G].
      * apply negb_false_iff, String.eqb_eq in G. rewrite G. exact He2.
      * apply negb_false_iff, String.eqb_eq in G. contradiction.
Qed.

(** [deleteTransaction] keeps the invariant, provided no wallet has the
    empty string as id. *)
Lemma deleteTransaction_ledger_ok (tid : string) (d : db) :
  ledger_ok d -> ledger_ok (after (deleteTransaction tid) d).
Proof.
  intros [Hk [He Hc]]. unfold after, deleteTransaction. step_db.
  set (d1 := mkdb (wallets d)
               (filter (fun t => negb (Transaction.id t =? tid)) (transactions d))).
  assert (Hk1 : keys_unique d1).
  { destruct Hk as [Hw Ht]. split; [exact Hw|]. apply NoDup_map_filter. exact Ht. }
  destruct Hk as [_ Htu].
  destruct (filter_key_at_most_one Transaction.id tid (transactions d) Htu)
    as [F | [t0 F]]; rewrite F; cbn [map truthy].
  - unfold ret; cbn [snd]. split; [exact Hk1|]. split; [exact He|].
    apply (ok_except_finish []); [intros x []|].
    apply ok_except_frame; [exact Hc|]. intros w _ _ ty'.
    apply sum_amount_filter_frame. intros t Ht Hp. exfalso.
    apply negb_false_iff, String.eqb_eq in Hp.
    exact (not_in_empty_filter Transaction.id tid (transactions d) t F Ht Hp).
  - set (o := Transaction.wallet_id t0).
    assert (Hok1 : ok_except [o] d1).
    { apply ok_except_frame; [exact Hc|]. intros w _ Hnot ty'.
      apply sum_amount_filter_frame. intros t Ht Hp.
      apply negb_false_iff, String.eqb_eq in Hp.
      pose proof (in_singleton_filter Transaction.id tid (transactions d) t0 t F Ht Hp).
      subst t. intros Heq. apply Hnot. left. exact Heq. }
    destruct (negb (o =? "")) eqn:G.
    + cbn [coalesce]. destruct (recalculateBalance_keys o d1 Hk1 He) as [Hk2 He2].
      split; [exact Hk2|]. split; [exact He2|].
      apply recalculateBalance_closes; [apply Hk1 | exact Hok1].
    + unfold ret; cbn [snd]. split; [exact Hk1|]. split; [exact He|].
      apply (ok_except_finish [o]); [|exact Hok1].
      intros x [Hx|[]]. subst x. apply negb_false_iff, String.eqb_eq in G.
      rewrite G. exact He.
Qed.

(** Every reconciling mutation, and every sequence of them, keeps the
    forward invariant on a ledger without an empty wallet id. *)
Lemma run_mutation_ledger_ok (m : mutation) (d : db) :
  ledger_ok d -> ledger_ok (after (run_mutation m) d).
Proof.
  destruct m; cbn [run_mutation].
  - apply createTransaction_ledger_ok.
  - apply updateTransaction_ledger_ok.
  - apply deleteTransaction_ledger_ok.
  - apply updateWallet_ledger_ok.
Qed.

Lemma run_all_ledger_ok (ms : list mutation) (d : db) :
  ledger_ok d -> ledger_ok (run_all ms d).
Proof.
  unfold run_all. revert d. induction ms as [|m ms IH]; intros d H; [exact H|].
  cbn [fold_left]. apply IH. apply run_mutation_ledger_ok. exact H.
Qed.

(** ** Structural validation of the backup document *)

(** C6: when the [wallets] or the [transactions] field of the document is
    missing or is not an array, [importBackup] throws its structural error
    before any destructive step: the database rows and the files are
    exactly as they were. *)
Theorem importBackup_rejects_malformed (DocumentDirectoryPath : string)
  (backup : BackupData.t) (s : sys) :
  isArray (BackupData.wallets backup) = false \/
  isArray (BackupData.transactions backup) = false ->
  exists msg, importBackup DocumentDirectoryPath backup s = (Throw (BackupInvalid msg), s).
Proof.
  intros H. unfold importBackup.
  destruct (isArray (BackupData.wallets backup)) eqn:Ew.
  - destruct H as [H|H]; [discriminate|]. rewrite H, orb_true_r.
    destruct (negb (js_truthy (BackupData.wallets backup))); cbn [orb];
      eexists; reflexivity.
  - rewrite orb_true_r. eexists. reflexivity.
Qed.

(** ** [importData] *)

Lemma bind_ok_inv {S A B} (m : M S A) (k : A -> M S B) (s s'' : S) (b : B) :
  bind m k s = (Ok b, s'') -> exists a s', m s = (Ok a, s') /\ k a s' = (Ok b, s'').
Proof.
  unfold bind. destruct (m s) as [[a|e] s']; intros H; [|discriminate].
  exists a, s'. split; [reflexivity | exact H].
Qed.

Lemma for_each_insert_wallets (g : Wallet.t -> Wallet.t) (ws : list Wallet.t) (d d' : db) :
  for_each (fun w => insert_wallet_row (g w)) ws d = (Ok tt, d') ->
  wallets d' = (wallets d ++ map g ws)%list /\ transactions d' = transactions d /\
  (NoDup (map Wallet.id (wallets d)) -> NoDup (map Wallet.id (wallets d'))).
Proof.
  revert d. induction ws as [|w ws IH]; intros d H.
  - cbn in H. injection H as <-. rewrite app_nil_r. auto.
  - cbn [for_each] in H. apply bind_ok_inv in H. destruct H as [[] [d1 [H1 H2]]].
    unfold insert_wallet_row in H1.
    destruct (wallet_exists (Wallet.id (g w)) d) eqn:Ex; [discriminate|].
    injection H1 as <-. destruct (IH _ H2) as [Hw [Ht Hn]].
    cbn [wallets transactions] in Hw, Ht, Hn.
    split; [rewrite Hw, <- app_assoc; reflexivity|]. split; [exact Ht|].
    intros Hnd. apply Hn. rewrite map_app. apply NoDup_snoc; [exact Hnd|].
    apply (existsb_key_false Wallet.id). exact Ex.
Qed.

Lemma for_each_insert_transactions (ts : list Transaction.t) (d d' : db) :
  for_each (fun t => insert_transaction_row t) ts d = (Ok tt, d') ->
  wallets d' = wallets d /\ transactions d' = (transactions d ++ ts)%list.
Proof.
  revert d. induction ts as [|t ts IH]; intros d H.
  - cbn in H. injection H as <-. rewrite app_nil_r. auto.
  - cbn [for_each] in H. apply bind_ok_inv in H. destruct H as [[] [d1 [H1 H2]]].
    unfold insert_transaction_row in H1.
    destruct (transaction_exists (Transaction.id t) d); [discriminate|].
    destruct (negb (wallet_exists (Transaction.wallet_id t) d)); [discriminate|].
    injection H1 as <-. destruct (IH _ H2) as [Hw Ht].
    cbn [wallets transactions] in Hw, Ht.
    split; [exact Hw | rewrite Ht, <- app_assoc; reflexivity].
Qed.

Lemma for_each_recalculateBalance_ok (L : list string) (d : db) :
  for_each (fun w => recalculateBalance w) L d =
  (Ok tt, after (for_each (fun w => recalculateBalance w) L) d).
Proof.
  revert d. induction L as [|x L IH]; intros d; [reflexivity|].
  cbn [for_each]. unfold after. rewrite bind_recalculateBalance. rewrite IH. reflexivity.
Qed.

Lemma after_recalculateBalance_then {A} (wid : string) (k : M db A) (d : db) :
  after (recalculateBalance wid ;;; k) d = after k (after (recalculateBalance wid) d).
Proof. unfold after at 1. rewrite bind_recalculateBalance. reflexivity. Qed.

Lemma for_each_recalculateBalance_frame (L : list string) (d : db) :
  let d' := after (for_each (fun w => recalculateBalance w) L) d in
  map strip (wallets d') = map strip (wallets d) /\
  map Wallet.id (wallets d') = map Wallet.id (wallets d) /\
  transactions d' = transactions d.
Proof.
  revert d. induction L as [|x L IH]; intros d; [cbn; auto|].
  cbn zeta. cbn [for_each].
  destruct (IH (after (recalculateBalance x) d)) as [H1 [H2 H3]].
  rewrite after_recalculateBalance_then, H1, H2, H3.
  destruct (recalculateBalance_shape x d) as [_ [b ->]].
  split; [|split; [apply map_wallets_ids; reflexivity | reflexivity]].
  unfold map_wallets; cbn [wallets]. rewrite map_map. apply map_ext.
  intros w. destruct (Wallet.id w =? x); reflexivity.
Qed.

Lemma for_each_recalculateBalance_consistent (L R : list string) (d : db) :
  NoDup (map Wallet.id (wallets d)) -> ok_except R d -> incl R L ->
  consistent (after (for_each (fun w => recalculateBalance w) L) d).
Proof.
  revert R d. induction L as [|x L IH]; intros R d Hnd Hok Hincl.
  - apply (ok_except_finish R); [|exact Hok].
    intros y Hy. destruct (Hincl y Hy).
  - unfold after. cbn [for_each]. rewrite bind_recalculateBalance.
    apply (IH (filter (fun y => negb (y =? x)) R)).
    + destruct (recalculateBalance_frame x d) as [Hid _]. rewrite Hid. exact Hnd.
    + apply ok_except_recalc; assumption.
    + intros y Hy. apply filter_In in Hy. destruct Hy as [Hy Hyx].
      apply negb_true_iff, String.eqb_neq in Hyx.
      destruct (Hincl y Hy) as [E|E]; [congruence | exact E].
Qed.

Lemma ok_except_all (d : db) : ok_except (map Wallet.id (wallets d)) d.
Proof.
  unfold ok_except. rewrite Forall_forall. intros w Hw. left. apply in_map. exact Hw.
Qed.

Lemma consistent_wallets_eq (d : db) :
  consistent d -> wallets d = map (reconcile (transactions d)) (map strip (wallets d)).
Proof.
  unfold consistent. rewrite map_map. intros H. induction H as [|w ws Hw _ IH];
    [reflexivity|].
  cbn [map]. rewrite <- IH. f_equal.
  destruct w as [i n ib cb img ic ca]. unfold balanced in Hw. cbn in Hw.
  unfold reconcile, strip, set_current_balance. cbn. rewrite <- Hw. reflexivity.
Qed.

Lemma reconcile_strip (txs : list Transaction.t) (w : Wallet.t) :
  reconcile txs (strip w) = reconcile txs w.
Proof. reflexivity. Qed.

Lemma importData_ok (data : ExportData.t) (d d' : db) :
  importData data d = (Ok tt, d') ->
  transactions d' = ExportData.transactions data /\
  wallets d' = map (fun w => reconcile (ExportData.transactions data) (import_wallet_row w))
                   (ExportData.wallets data) /\
  NoDup (map Wallet.id (wallets d')).
Proof.
  unfold importData. intros H.
  apply bind_ok_inv in H. destruct H as [[] [d1 [H1 H]]].
  unfold delete_all_transactions in H1. injection H1 as <-.
  apply bind_ok_inv in H. destruct H as [[] [d2 [H2 H]]].
  unfold delete_all_wallets in H2. injection H2 as <-.
  apply bind_ok_inv in H. destruct H as [[] [d3 [H3 H]]].
  destruct (for_each_insert_wallets _ _ _ _ H3) as [Hw3 [Ht3 Hn3]].
  cbn [wallets transactions app] in Hw3, Ht3, Hn3.
  specialize (Hn3 (NoDup_nil _)). rewrite Hw3 in Hn3.
  apply bind_ok_inv in H. destruct H as [[] [d4 [H4 H]]].
  destruct (for_each_insert_transactions _ _ _ H4) as [Hw4 Ht4].
  rewrite Ht3 in Ht4. cbn [app] in Ht4. rewrite Hw3 in Hw4.
  apply bind_ok_inv in H. destruct H as [ids [d5 [H5 H]]].
  unfold select_wallet_ids in H5. injection H5 as <- <-.
  rewrite for_each_recalculateBalance_ok in H. injection H as <-.
  destruct (for_each_recalculateBalance_frame (map Wallet.id (wallets d4)) d4)
    as [Hs [Hid Ht]].
  assert (Hc : consistent (after (for_each (fun w => recalculateBalance w)
                                   (map Wallet.id (wallets d4))) d4)).
  { apply (for_each_recalculateBalance_consistent _ (map Wallet.id (wallets d4)));
      [rewrite Hw4; exact Hn3 | apply ok_except_all | apply incl_refl]. }
  split; [rewrite Ht; exact Ht4|]. split.
  - rewrite (consistent_wallets_eq _ Hc). rewrite Hs, Ht, Ht4, Hw4, map_map, map_map.
    apply map_ext. intros w. apply reconcile_strip.
  - rewrite Hid, Hw4. exact Hn3.
Qed.

(** ** Reconciliation after import *)

(** C3: once [importData(data)] has run to completion, the transactions are
    the document's, and each wallet of the document is stored with its own
    [initial_balance] and with [current_balance] recomputed by the forward
    formula over the imported transactions, whatever [current_balance] the
    document carried. *)
Theorem importData_reconciles (data : ExportData.t) (d : db) :
  fst (importData data d) = Ok tt ->
  let d' := after (importData data) d in
  transactions d' = ExportData.transactions data /\
  forall w, In w (ExportData.wallets data) ->
    exists w', In w' (wallets d') /\ Wallet.id w' = Wallet.id w /\
      Wallet.initial_balance w' = Wallet.initial_balance w /\
      Wallet.current_balance w' =
        Wallet.initial_balance w
        + sum_amount (ExportData.transactions data) (Wallet.id w) IN
        - sum_amount (ExportData.transactions data) (Wallet.id w) OUT.
Proof.
  intros Hok d'. subst d'. unfold after.
  destruct (importData data d) as [r d'] eqn:E. cbn [fst] in Hok. subst r.
  destruct (importData_ok data d d' E) as [Ht [Hw _]]. cbn [snd].
  split; [exact Ht|]. intros w Hin. exists (reconcile (ExportData.transactions data)
                                            (import_wallet_row w)).
  split; [rewrite Hw; apply in_map_iff; exists w; split; [reflexivity | exact Hin]|].
  split; [reflexivity|]. split; reflexivity.
Qed.

(** ** Witnesses *)

Lemma updateWalletDirect_spec_witness :
  In wallet_main (wallets ledger_main) /\
  (let d' := after (updateWalletDirect (Wallet.id wallet_main) "Main" 500000 None)
                   ledger_main in
   fst (updateWalletDirect (Wallet.id wallet_main) "Main" 500000 None ledger_main) = Ok tt /\
   transactions d' = transactions ledger_main /\
   (exists w', In w' (wallets d') /\ Wallet.id w' = Wallet.id wallet_main) /\
   forall w', In w' (wallets d') -> Wallet.id w' = Wallet.id wallet_main ->
     Wallet.initial_balance w' =
       500000 - sum_amount (transactions ledger_main) (Wallet.id wallet_main) IN
              + sum_amount (transactions ledger_main) (Wallet.id wallet_main) OUT /\
     Wallet.current_balance w' = 500000 /\
     balanced (transactions d') w').
Proof.
  split; [left; reflexivity|].
  apply (updateWalletDirect_spec ledger_main wallet_main "Main" 500000 None).
  left; reflexivity.
Defined.

Lemma importData_reconciles_witness :
  fst (importData doc_stale_balance empty_db) = Ok tt /\
  (let d' := after (importData doc_stale_balance) empty_db in
   transactions d' = ExportData.transactions doc_stale_balance /\
   forall w, In w (ExportData.wallets doc_stale_balance) ->
     exists w', In w' (wallets d') /\ Wallet.id w' = Wallet.id w /\
       Wallet.initial_balance w' = Wallet.initial_balance w /\
       Wallet.current_balance w' =
         Wallet.initial_balance w
         + sum_amount (ExportData.transactions doc_stale_balance) (Wallet.id w) IN
         - sum_amount (ExportData.transactions doc_stale_balance) (Wallet.id w) OUT).
Proof.
  split; [vm_compute; reflexivity|].
  apply (importData_reconciles doc_stale_balance empty_db).
  vm_compute; reflexivity.
Defined.

Lemma importBackup_rejects_malformed_witness :
  (isArray (BackupData.wallets
              (BackupData.mk 1 "LiquidMoney" "2026-01-01T08:00:00.000Z" JUndefined (JArray [])))
   = false \/
   isArray (BackupData.transactions
              (BackupData.mk 1 "LiquidMoney" "2026-01-01T08:00:00.000Z" JUndefined (JArray [])))
   = false) /\
  exists msg,
    importBackup "/files"
      (BackupData.mk 1 "LiquidMoney" "2026-01-01T08:00:00.000Z" JUndefined (JArray []))
      (mksys ledger_main (fun _ => None)) =
    (Throw (BackupInvalid msg), mksys ledger_main (fun _ => None)).
Proof.
  split; [left; reflexivity|].
  apply (importBackup_rejects_malformed "/files"
           (BackupData.mk 1 "LiquidMoney" "2026-01-01T08:00:00.000Z" JUndefined (JArray []))
           (mksys ledger_main (fun _ => None))).
  left; reflexivity.
Defined.

Lemma updateWallet_omitted_optionals_witness :
  In wallet_main (wallets ledger_main) /\
  (let d' := after (updateWallet (Wallet.id wallet_main) "Main" 100000 None None)
                   ledger_main in
   (exists w', In w' (wallets d') /\ Wallet.id w' = Wallet.id wallet_main) /\
   forall w', In w' (wallets d') -> Wallet.id w' = Wallet.id wallet_main ->
     Wallet.image_uri w' = None /\ Wallet.icon w' = Some "Wallet").
Proof.
  split; [left; reflexivity|].
  apply (updateWallet_omitted_optionals ledger_main wallet_main "Main" 100000).
  left; reflexivity.
Defined.

(** ** The empty wallet id *)

(** C1 (failing case): after importing [doc_empty_id] the ledger has unique
    keys and satisfies the forward formula everywhere; moving the
    transaction out of the wallet [""], or deleting it, leaves that wallet's
    [current_balance] stale, because [updateTransaction] and
    [deleteTransaction] test the old wallet id by truthiness
    ([oldWalletId && ...], [if (walletId)]) and [""] is falsy. *)
Theorem reconciliation_misses_empty_id_wallet :
  let d0 := after (importData doc_empty_id) empty_db in
  fst (importData doc_empty_id empty_db) = Ok tt /\
  keys_unique d0 /\ consistent d0 /\
  ~ consistent (run_all [UpdateTransaction "t1" "w2" IN 100 None None] d0) /\
  ~ consistent (run_all [DeleteTransaction "t1"] d0).
Proof.
  cbv zeta. split; [vm_compute; reflexivity|].
  split; [vm_compute; repeat constructor; cbv; intuition discriminate|].
  split; [vm_compute; repeat constructor|].
  split; vm_compute; intros H; inversion H as [|? ? Hb _]; discriminate Hb.
Qed.

(** C5 (failing case): moving the transaction [t1] from the wallet [""] to
    [w2] recomputes [w2] (0 + 100) but not [""], which keeps
    [current_balance = 100] although no transaction of it is left. *)
Theorem updateTransaction_move_skips_empty_id :
  let d1 := after (updateTransaction "t1" "w2" IN 100 None None)
                  (after (importData doc_empty_id) empty_db) in
  wallets d1 =
    [Wallet.mk "" "Imported" 0 100 None (Some "Wallet") "2026-01-01T08:00:00.000Z";
     Wallet.mk "w2" "Bank" 0 100 None (Some "Wallet") "2026-01-01T09:00:00.000Z"] /\
  sum_amount (transactions d1) "" IN = 0 /\ sum_amount (transactions d1) "" OUT = 0 /\
  sum_amount (transactions d1) "w2" IN = 100.
Proof. vm_compute. repeat split. Qed.

(** ** Export then import *)

(** C4 (counterexample): exporting [sys_main] and importing the document
    succeeds, but the wallet does not come back with equal field values: its
    [image_uri] becomes [<IMAGE_DIR>/wallet_w-main.jpg], the name the import
    gives the image it writes back. *)
Lemma export_then_import_counterexample :
  fst (export_then_import "/files" "2026-02-01T00:00:00.000Z" sys_main) = Ok true /\
  map Wallet.image_uri
    (wallets (sdb (after (export_then_import "/files" "2026-02-01T00:00:00.000Z") sys_main)))
  = [Some "/files/liquidmoney_images/wallet_w-main.jpg"] /\
  ~ (forall w, In w (wallets (sdb sys_main)) ->
       In w (wallets (sdb (after (export_then_import "/files" "2026-02-01T00:00:00.000Z")
                                 sys_main)))).
Proof.
  split; [vm_compute; reflexivity|]. split; [vm_compute; reflexivity|].
  intros H. specialize (H wallet_main (or_introl eq_refl)).
  vm_compute in H. destruct H as [H|[]]. discriminate H.
Qed.

Lemma insert_by_perm {A} (le : A -> A -> bool) (x : A) (l : list A) :
  Permutation (insert_by le x l) (x :: l).
Proof.
  induction l as [|y l IH]; cbn [insert_by]; [reflexivity|].
  destruct (le x y); [reflexivity|].
  rewrite IH. apply perm_swap.
Qed.

Lemma sort_by_perm {A} (le : A -> A -> bool) (l : list A) : Permutation (sort_by le l) l.
Proof.
  induction l as [|x l IH]; cbn [sort_by]; [reflexivity|].
  rewrite insert_by_perm. apply perm_skip. exact IH.
Qed.

Lemma bind_of_ok {S A B} (m : M S A) (k : A -> M S B) (s s' : S) (a : A) :
  m s = (Ok a, s') -> bind m k s = k a s'.
Proof. intros H. unfold bind. rewrite H. reflexivity. Qed.

Lemma map_m_pure {S A B} (f : A -> M S B) (g : A -> B) (l : list A) (s : S) :
  (forall x, f x s = (Ok (g x), s)) -> map_m f l s = (Ok (map g l), s).
Proof.
  intros Hf. induction l as [|x l IH]; [reflexivity|].
  cbn [map_m map]. rewrite (bind_of_ok _ _ _ _ _ (Hf x)).
  rewrite (bind_of_ok _ _ _ _ _ IH). reflexivity.
Qed.

Lemma map_m_files {A B} (f : A -> M sys B) (g : A -> B) (l : list A) :
  (forall x s, exists fs', f x s = (Ok (g x), mksys (sdb s) fs')) ->
  forall s, exists fs', map_m f l s = (Ok (map g l), mksys (sdb s) fs').
Proof.
  intros Hf. induction l as [|x l IH]; intros s.
  - exists (files s). destruct s; reflexivity.
  - cbn [map_m map]. destruct (Hf x s) as [fs1 H1].
    rewrite (bind_of_ok _ _ _ _ _ H1).
    destruct (IH (mksys (sdb s) fs1)) as [fs2 H2]. cbn [sdb] in H2.
    rewrite (bind_of_ok _ _ _ _ _ H2). exists fs2. reflexivity.
Qed.

Lemma restore_wallet_step (DocumentDirectoryPath : string) (bw : BackupWallet.t) (s : sys) :
  exists fs', restore_wallet DocumentDirectoryPath bw s =
              (Ok (restored_wallet DocumentDirectoryPath bw), mksys (sdb s) fs').
Proof.
  unfold restore_wallet, restored_wallet, imported_image_uri.
  destruct (truthy (BackupWallet.image_base64 bw)).
  - eexists. reflexivity.
  - exists (files s). destruct s; reflexivity.
Qed.

Lemma restore_transaction_step (DocumentDirectoryPath : string) (bt : BackupTransaction.t)
  (s : sys) :
  exists fs', restore_transaction DocumentDirectoryPath bt s =
              (Ok (restored_transaction DocumentDirectoryPath bt), mksys (sdb s) fs').
Proof.
  unfold restore_transaction, restored_transaction, imported_image_uri.
  destruct (truthy (BackupTransaction.image_base64 bt)).
  - eexists. reflexivity.
  - exists (files s). destruct s; reflexivity.
Qed.

Lemma not_in_existsb_key {A} (key : A -> string) (k : string) (l : list A) :
  ~ In k (map key l) -> existsb (fun x => key x =? k) l = false.
Proof.
  intros H. destruct (existsb (fun x => key x =? k) l) eqn:E; [|reflexivity].
  exfalso. apply existsb_exists in E. destruct E as [x [Hx Hk]].
  apply String.eqb_eq in Hk. apply H. rewrite <- Hk. apply in_map. exact Hx.
Qed.

Lemma for_each_insert_wallets_ok (g : Wallet.t -> Wallet.t) (ws : list Wallet.t) (d : db) :
  (forall w, Wallet.id (g w) = Wallet.id w) ->
  NoDup (map Wallet.id (wallets d) ++ map Wallet.id ws) ->
  for_each (fun w => insert_wallet_row (g w)) ws d =
  (Ok tt, mkdb (wallets d ++ map g ws) (transactions d)).
Proof.
  intros Hg. revert d. induction ws as [|w ws IH]; intros d Hnd.
  - destruct d. cbn. rewrite app_nil_r. reflexivity.
  - cbn [for_each]. unfold bind at 1, insert_wallet_row at 1, wallet_exists.
    rewrite not_in_existsb_key.
    + cbn [map]. rewrite IH.
      * cbn [wallets transactions]. rewrite <- app_assoc. reflexivity.
      * cbn [wallets]. rewrite map_app, <- app_assoc. cbn [map app].
        rewrite Hg. exact Hnd.
    + rewrite Hg. cbn [map] in Hnd. apply NoDup_remove_2 in Hnd.
      intros Hin. apply Hnd. apply in_or_app. left. exact Hin.
Qed.

Lemma for_each_insert_transactions_ok (ts : list Transaction.t) (d : db) :
  NoDup (map Transaction.id (transactions d) ++ map Transaction.id ts) ->
  (forall t, In t ts -> In (Transaction.wallet_id t) (map Wallet.id (wallets d))) ->
  for_each (fun t => insert_transaction_row t) ts d =
  (Ok tt, mkdb (wallets d) (transactions d ++ ts)).
Proof.
  revert d. induction ts as [|t ts IH]; intros d Hnd Hfk.
  - destruct d. cbn. rewrite app_nil_r. reflexivity.
  - cbn [for_each]. unfold bind at 1, insert_transaction_row at 1, transaction_exists.
    rewrite not_in_existsb_key.
    + assert (Hw : wallet_exists (Transaction.wallet_id t) d = true).
      { unfold wallet_exists. apply existsb_exists.
        destruct (proj1 (in_map_iff _ _ _) (Hfk t (or_introl eq_refl))) as [w [Hw Hin]].
        exists w. split; [exact Hin | apply String.eqb_eq; exact Hw]. }
      rewrite Hw. cbn [negb]. rewrite IH.
      * cbn [wallets transactions]. rewrite <- app_assoc. reflexivity.
      * cbn [transactions]. rewrite map_app, <- app_assoc. exact Hnd.
      * intros t' Ht'. apply Hfk. right. exact Ht'.
    + cbn [map] in Hnd. apply NoDup_remove_2 in Hnd.
      intros Hin. apply Hnd. apply in_or_app. left. exact Hin.
Qed.

Lemma importData_succeeds (data : ExportData.t) (d : db) :
  NoDup (map Wallet.id (ExportData.wallets data)) ->
  NoDup (map Transaction.id (ExportData.transactions data)) ->
  (forall t, In t (ExportData.transactions data) ->
     In (Transaction.wallet_id t) (map Wallet.id (ExportData.wallets data))) ->
  importData data d = (Ok tt, after (importData data) d).
Proof.
  intros Hw Ht Hfk. unfold after.
  assert (H : fst (importData data d) = Ok tt).
  { assert (Hfk' : forall t, In t (ExportData.transactions data) ->
       In (Transaction.wallet_id t)
         (map Wallet.id (wallets (mkdb ([] ++ map import_wallet_row (ExportData.wallets data)) [])))).
    { intros t Hin. cbn [wallets app]. rewrite map_map. apply Hfk. exact Hin. }
    unfold importData. unfold bind at 1 2. cbn [delete_all_transactions delete_all_wallets].
    rewrite (bind_of_ok _ _ _ _ _
               (for_each_insert_wallets_ok import_wallet_row _ (mkdb [] [])
                  (fun w => eq_refl) Hw)).
    rewrite (bind_of_ok _ _ _ _ _ (for_each_insert_transactions_ok
               (ExportData.transactions data)
               (mkdb ([] ++ map import_wallet_row (ExportData.wallets data)) []) Ht Hfk')).
    unfold bind at 1, select_wallet_ids. apply (f_equal fst (for_each_recalculateBalance_ok _ _)). }
  destruct (importData data d) as [r d']. cbn [fst] in H. subst r. reflexivity.
Qed.

Lemma sum_amount_perm (l1 l2 : list Transaction.t) (wid : string) (ty : TxType) :
  Permutation l1 l2 -> sum_amount l1 wid ty = sum_amount l2 wid ty.
Proof.
  unfold sum_amount. induction 1; cbn [fold_right].
  - reflexivity.
  - rewrite IHPermutation. reflexivity.
  - destruct (_ && _), (_ && _); lia.
  - congruence.
Qed.

Lemma sum_amount_map_fields (f : Transaction.t -> Transaction.t)
  (txs : list Transaction.t) (wid : string) (ty : TxType) :
  (forall t, Transaction.wallet_id (f t) = Transaction.wallet_id t /\
             Transaction.type (f t) = Transaction.type t /\
             Transaction.amount (f t) = Transaction.amount t) ->
  sum_amount (map f txs) wid ty = sum_amount txs wid ty.
Proof.
  intros Hf. unfold sum_amount. induction txs as [|t txs IH]; [reflexivity|].
  cbn [map fold_right]. rewrite IH. destruct (Hf t) as [-> [-> ->]]. reflexivity.
Qed.

Lemma reconcile_sums (a b : list Transaction.t) (w : Wallet.t) :
  (forall wid ty, sum_amount a wid ty = sum_amount b wid ty) ->
  reconcile a w = reconcile b w.
Proof. intros H. unfold reconcile. rewrite !H. reflexivity. Qed.

Lemma clearImageDirectory_db (DocumentDirectoryPath : string) (s : sys) :
  exists fs', clearImageDirectory DocumentDirectoryPath s = (Ok tt, mksys (sdb s) fs').
Proof. eexists. reflexivity. Qed.

Lemma backup_wallet_step (w : Wallet.t) (d : db) (fs : fstore) :
  backup_wallet w (mksys d fs) =
  (Ok (BackupWallet.mk w (exported_image fs (Wallet.image_uri w))), mksys d fs).
Proof.
  unfold backup_wallet, exported_image. destruct (truthy (Wallet.image_uri w)); reflexivity.
Qed.

Lemma backup_transaction_step (t : Transaction.t) (d : db) (fs : fstore) :
  backup_transaction t (mksys d fs) =
  (Ok (BackupTransaction.mk t (exported_image fs (Transaction.image_uri t))), mksys d fs).
Proof.
  unfold backup_transaction, exported_image.
  destruct (truthy (Transaction.image_uri t)); reflexivity.
Qed.

Lemma export_then_import_run (DocumentDirectoryPath exportedAt : string) (d : db)
  (fs : fstore) :
  keys_unique d -> fk_ok d ->
  let WS := sort_by (fun a b => String.leb (Wallet.created_at a) (Wallet.created_at b))
              (wallets d) in
  let TS := sort_by (fun a b => String.leb (Transaction.created_at a)
                                           (Transaction.created_at b))
              (transactions d) in
  let data := ExportData.mk
    (map (restored_wallet DocumentDirectoryPath)
       (map (fun w => BackupWallet.mk w (exported_image fs (Wallet.image_uri w))) WS))
    (map (restored_transaction DocumentDirectoryPath)
       (map (fun t => BackupTransaction.mk t (exported_image fs (Transaction.image_uri t))) TS)) in
  exists fs',
    export_then_import DocumentDirectoryPath exportedAt (mksys d fs) =
    (Ok true, mksys (after (importData data) d) fs') /\
    importData data d = (Ok tt, after (importData data) d).
Proof.
  intros [Hw Ht] Hfk WS TS data.
  assert (HWS : Permutation WS (wallets d)) by apply sort_by_perm.
  assert (HTS : Permutation TS (transactions d)) by apply sort_by_perm.
  assert (HI : importData data d = (Ok tt, after (importData data) d)).
  assert (Ewid : map Wallet.id (ExportData.wallets data) = map Wallet.id WS).
  { unfold data. cbn [ExportData.wallets]. rewrite !map_map. apply map_ext. reflexivity. }
  assert (Etid : map Transaction.id (ExportData.transactions data) = map Transaction.id TS).
  { unfold data. cbn [ExportData.transactions]. rewrite !map_map. apply map_ext. reflexivity. }
  assert (Ewal : map Transaction.wallet_id (ExportData.transactions data) =
                 map Transaction.wallet_id TS).
  { unfold data. cbn [ExportData.transactions]. rewrite !map_map. apply map_ext. reflexivity. }
  { apply importData_succeeds.
    - rewrite Ewid. eapply Permutation_NoDup; [|exact Hw].
      apply Permutation_map. symmetry. exact HWS.
    - rewrite Etid. eapply Permutation_NoDup; [|exact Ht].
      apply Permutation_map. symmetry. exact HTS.
    - intros t Hin. rewrite Ewid.
      apply (in_map Transaction.wallet_id) in Hin. rewrite Ewal in Hin.
      apply in_map_iff in Hin. destruct Hin as [t0 [<- Hin]].
      eapply Permutation_in; [apply Permutation_map; symmetry; exact HWS|].
      apply Hfk. eapply Permutation_in; [exact HTS | exact Hin]. }
  assert (HE : exportBackup exportedAt (mksys d fs) =
    (Ok (BackupData.mk BACKUP_VERSION "LiquidMoney" exportedAt
           (JArray (map (fun w => BackupWallet.mk w (exported_image fs (Wallet.image_uri w))) WS))
           (JArray (map (fun t => BackupTransaction.mk t
                                    (exported_image fs (Transaction.image_uri t))) TS))),
     mksys d fs)).
  { unfold exportBackup.
    rewrite (bind_of_ok _ _ _ _ _ (eq_refl : lift_db getExportData (mksys d fs) =
                                              (Ok (ExportData.mk WS TS), mksys d fs))).
    cbn [ExportData.wallets ExportData.transactions].
    rewrite (bind_of_ok _ _ _ _ _ (map_m_pure backup_wallet _ WS (mksys d fs)
      (fun w => backup_wallet_step w d fs))).
    rewrite (bind_of_ok _ _ _ _ _ (map_m_pure backup_transaction _ TS (mksys d fs)
      (fun t => backup_transaction_step t d fs))).
    reflexivity. }
  unfold export_then_import. rewrite (bind_of_ok _ _ _ _ _ HE).
  unfold importBackup. cbn [BackupData.wallets BackupData.transactions js_truthy isArray
                             negb orb array_elements].
  destruct (clearImageDirectory_db DocumentDirectoryPath (mksys d fs)) as [fs0 H0].
  rewrite (bind_of_ok _ _ _ _ _ H0). cbn [sdb].
  destruct (map_m_files _ _
              (map (fun w => BackupWallet.mk w (exported_image fs (Wallet.image_uri w))) WS)
              (restore_wallet_step DocumentDirectoryPath)
              (mksys d fs0)) as [fs1 H1].
  rewrite (bind_of_ok _ _ _ _ _ H1). cbn [sdb].
  destruct (map_m_files _ _
              (map (fun t => BackupTransaction.mk t
                               (exported_image fs (Transaction.image_uri t))) TS)
              (restore_transaction_step DocumentDirectoryPath)
              (mksys d fs1)) as [fs2 H2].
  rewrite (bind_of_ok _ _ _ _ _ H2). cbn [sdb].
  assert (HL : lift_db (importData data) (mksys d fs2) =
               (Ok tt, mksys (after (importData data) d) fs2)).
  { unfold lift_db. cbn [sdb files]. rewrite HI. reflexivity. }
  exists fs2. split; [|exact HI].
  unfold data in HL. rewrite (bind_of_ok _ _ _ _ _ HL). reflexivity.
Qed.

(** C4 (amended): exporting a backup and importing the document it produced
    succeeds on any ledger whose keys are unique and whose transactions all
    reference a wallet. The wallets and transactions come back (up to the
    order of the rows) with the same ids and fields, except that each
    [image_uri] becomes [IMAGE_DIR/wallet_<id>.jpg] (or [txn_<id>.jpg]) when
    the image file held content at export and [null] otherwise, a [null]
    icon becomes ['Wallet'], and [current_balance] is recomputed by the
    forward formula, so it is unchanged on a ledger that satisfied it. *)
Theorem export_then_import_roundtrip (DocumentDirectoryPath exportedAt : string) (s : sys) :
  keys_unique (sdb s) -> fk_ok (sdb s) ->
  let s' := after (export_then_import DocumentDirectoryPath exportedAt) s in
  fst (export_then_import DocumentDirectoryPath exportedAt s) = Ok true /\
  Permutation (wallets (sdb s'))
    (map (roundtrip_wallet DocumentDirectoryPath (files s) (transactions (sdb s)))
       (wallets (sdb s))) /\
  Permutation (transactions (sdb s'))
    (map (roundtrip_transaction DocumentDirectoryPath (files s)) (transactions (sdb s))) /\
  (consistent (sdb s) -> forall w, In w (wallets (sdb s)) ->
     Wallet.current_balance
       (roundtrip_wallet DocumentDirectoryPath (files s) (transactions (sdb s)) w) =
     Wallet.current_balance w).
Proof.
  intros Hk Hfk. cbv zeta. destruct s as [d fs]. cbn [sdb files] in *.
  destruct (export_then_import_run DocumentDirectoryPath exportedAt d fs Hk Hfk)
    as [fs' [HR HI]].
  cbv zeta in HR, HI.
  set (WS := sort_by _ (wallets d)) in HR, HI.
  set (TS := sort_by _ (transactions d)) in HR, HI.
  assert (HWS : Permutation WS (wallets d)) by apply sort_by_perm.
  assert (HTS : Permutation TS (transactions d)) by apply sort_by_perm.
  apply importData_ok in HI.
  cbn [ExportData.wallets ExportData.transactions] in HI.
  destruct HI as [Ht' [Hw' _]].
  assert (Hsum : forall wid ty,
    sum_amount (map (restored_transaction DocumentDirectoryPath)
                  (map (fun t => BackupTransaction.mk t
                                   (exported_image fs (Transaction.image_uri t))) TS))
      wid ty = sum_amount (transactions d) wid ty).
  { intros wid ty. rewrite map_map.
    rewrite sum_amount_map_fields by (intros; repeat split).
    apply sum_amount_perm. exact HTS. }
  unfold after. rewrite HR. cbn [fst snd sdb].
  split; [reflexivity|]. split; [|split].
  - rewrite Hw', !map_map.
    rewrite (map_ext _ (roundtrip_wallet DocumentDirectoryPath fs (transactions d))).
    + apply Permutation_map. exact HWS.
    + intros w. unfold roundtrip_wallet. apply reconcile_sums.
      rewrite map_map in Hsum. exact Hsum.
  - rewrite Ht', map_map. apply Permutation_map. exact HTS.
  - intros Hc w Hin. unfold consistent in Hc. rewrite Forall_forall in Hc.
    specialize (Hc w Hin). unfold balanced in Hc.
    unfold roundtrip_wallet, reconcile. cbn. symmetry. exact Hc.
Qed.

Lemma export_then_import_roundtrip_witness :
  (keys_unique (sdb sys_main) /\ fk_ok (sdb sys_main)) /\
  fst (export_then_import "/files" "2026-02-01T00:00:00.000Z" sys_main) = Ok true.
Proof.
  assert (Hk : keys_unique (sdb sys_main)).
  { split; cbn; repeat constructor; cbn; intuition discriminate. }
  assert (Hf : fk_ok (sdb sys_main)).
  { intros t Ht. cbn in Ht |- *. intuition (subst; cbn; auto). }
  split; [split; assumption|].
  exact (proj1 (export_then_import_roundtrip "/files" "2026-02-01T00:00:00.000Z" sys_main Hk Hf)).
Defined.


(** C9 (code bug): [getMonthlyStats] opens each month at midnight UTC
    ([`${month}-01T00:00:00.000Z`]) but closes it at local midnight of the
    next month ([new Date(y, m, 1).toISOString()]). In UTC+7, on 15 April 2026,
    the intervals leave out the last seven hours of every month in UTC. An
    income recorded at 2026-03-31T20:00:00.000Z therefore counts in no
    entry, although it lies within [2026-03-01, 2026-04-01) in UTC. In UTC
    the same ledger gives the March entry [totalIn = 100]. *)
Theorem getMonthlyStats_misses_month_end :
  getMonthlyStats tz_hcm now_hcm None ledger_hcm =
    Some [MonthlyStat.mk "2025-11" 0 0; MonthlyStat.mk "2025-12" 0 0;
          MonthlyStat.mk "2026-01" 0 0; MonthlyStat.mk "2026-02" 0 0;
          MonthlyStat.mk "2026-03" 0 0; MonthlyStat.mk "2026-04" 0 0] /\
  toISOString (new_Date_local tz_hcm 2026 3) = "2026-03-31T17:00:00.000Z" /\
  transactions ledger_hcm =
    [Transaction.mk "t-apr1" "w-hcm" IN 100 (Some "salary") None "2026-03-31T20:00:00.000Z"] /\
  spec_month_total IN "2026-03" "2026-04" (transactions ledger_hcm) = 100 /\
  getMonthlyStats 0 now_hcm None ledger_hcm =
    Some [MonthlyStat.mk "2025-11" 0 0; MonthlyStat.mk "2025-12" 0 0;
          MonthlyStat.mk "2026-01" 0 0; MonthlyStat.mk "2026-02" 0 0;
          MonthlyStat.mk "2026-03" 100 0; MonthlyStat.mk "2026-04" 0 0].
Proof. vm_compute. repeat split. Qed.

(** ** The other queries *)

Lemma string_leb_trans (a b c : string) :
  String.leb a b = true -> String.leb b c = true -> String.leb a c = true.
Proof.
  revert b c. induction a as [|x a IH]; intros b c Hab Hbc.
  - unfold String.leb. destruct c; reflexivity.
  - destruct b as [|y b]; [discriminate|]. destruct c as [|z c]; [discriminate|].
    unfold String.leb in *. cbn [String.compare] in *.
    unfold Ascii.compare in *.
    destruct (N.compare (N_of_ascii x) (N_of_ascii y)) eqn:Exy; [| |discriminate];
    destruct (N.compare (N_of_ascii y) (N_of_ascii z)) eqn:Eyz; try discriminate.
    + apply N.compare_eq_iff in Exy, Eyz. rewrite Exy, Eyz, N.compare_refl.
      apply IH with b; assumption.
    + apply N.compare_eq_iff in Exy. rewrite Exy, Eyz. reflexivity.
    + apply N.compare_eq_iff in Eyz. rewrite <- Eyz, Exy. reflexivity.
    + assert (E : N.compare (N_of_ascii x) (N_of_ascii z) = Lt).
      { exact (N.lt_trans _ _ _ Exy Eyz). }
      rewrite E. reflexivity.
Qed.

Lemma insert_by_sorted {A} (le : A -> A -> bool) (x : A) (l : list A) :
  (forall a b, le a b = false -> le b a = true) ->
  Sorted (fun a b => le a b = true) l -> Sorted (fun a b => le a b = true) (insert_by le x l).
Proof.
  intros Htot. induction l as [|y l IH]; intros Hs; cbn [insert_by].
  - repeat constructor.
  - destruct (le x y) eqn:E.
    + constructor; [exact Hs | constructor; exact E].
    + apply Sorted_inv in Hs. destruct Hs as [Hs Hh].
      constructor; [apply IH; exact Hs|].
      destruct l as [|z l]; cbn [insert_by].
      * constructor. apply Htot. exact E.
      * destruct (le x z); constructor; [apply Htot; exact E|].
        apply HdRel_inv in Hh. exact Hh.
Qed.

Lemma sort_by_sorted {A} (le : A -> A -> bool) (l : list A) :
  (forall a b, le a b = false -> le b a = true) ->
  Sorted (fun a b => le a b = true) (sort_by le l).
Proof.
  intros Htot. induction l as [|x l IH]; cbn [sort_by]; [constructor|].
  apply insert_by_sorted; assumption.
Qed.

Lemma string_leb_flip (a b : string) : String.leb a b = false -> String.leb b a = true.
Proof. intros H. destruct (String.leb_total a b) as [E|E]; [congruence | exact E]. Qed.

Lemma sorted_app_le {A} (R : A -> A -> Prop) (a b : list A) :
  (forall x y z, R x y -> R y z -> R x z) ->
  Sorted R (a ++ b) -> forall x y, In x a -> In y b -> R x y.
Proof.
  intros Htr Hs. apply Sorted_StronglySorted in Hs; [|exact Htr].
  induction a as [|u a IH]; intros x y Hx Hy; [destruct Hx|].
  cbn [app] in Hs. apply StronglySorted_inv in Hs. destruct Hs as [Hs Hall].
  destruct Hx as [<-|Hx].
  - rewrite Forall_forall in Hall. apply Hall. apply in_or_app. right. exact Hy.
  - apply IH; assumption.
Qed.

Lemma filter_absent_nil {A} (key : A -> string) (k : string) (l : list A) :
  ~ In k (map key l) -> filter (fun x => key x =? k) l = [].
Proof.
  induction l as [|x l IH]; intros H; [reflexivity|].
  cbn [filter]. cbn [map] in H.
  destruct (key x =? k) eqn:E.
  - exfalso. apply H. left. apply String.eqb_eq. exact E.
  - apply IH. intros Hin. apply H. right. exact Hin.
Qed.

Lemma generateUUID_length (rnd : nat -> Z) : String.length (generateUUID rnd) = 36%nat.
Proof. reflexivity. Qed.

Lemma generateUUID_nonempty (rnd : nat -> Z) : generateUUID rnd <> "".
Proof. intros H. pose proof (generateUUID_length rnd) as L. rewrite H in L. discriminate. Qed.

Lemma hex_digit_nibble (v : Z) :
  (0 <= v < 16)%Z ->
  In (hex_digit v) ["0"; "1"; "2"; "3"; "4"; "5"; "6"; "7"; "8"; "9";
                    "a"; "b"; "c"; "d"; "e"; "f"]%char.
Proof.
  intros H.
  assert (v = 0 \/ v = 1 \/ v = 2 \/ v = 3 \/ v = 4 \/ v = 5 \/ v = 6 \/ v = 7 \/
          v = 8 \/ v = 9 \/ v = 10 \/ v = 11 \/ v = 12 \/ v = 13 \/ v = 14 \/ v = 15)%Z
    as Hv by lia.
  repeat destruct Hv as [-> | Hv]; [..| subst v]; cbn; tauto.
Qed.

Lemma variant_nibble (v : Z) :
  (0 <= v < 16)%Z -> In (hex_digit (Z.lor (Z.land v 3) 8)) ["8"; "9"; "a"; "b"]%char.
Proof.
  intros H.
  assert (v = 0 \/ v = 1 \/ v = 2 \/ v = 3 \/ v = 4 \/ v = 5 \/ v = 6 \/ v = 7 \/
          v = 8 \/ v = 9 \/ v = 10 \/ v = 11 \/ v = 12 \/ v = 13 \/ v = 14 \/ v = 15)%Z
    as Hv by lia.
  repeat destruct Hv as [-> | Hv]; [..| subst v]; cbn; tauto.
Qed.

Lemma variant_hex (v : Z) :
  (0 <= v < 16)%Z -> In (hex_digit (Z.lor (Z.land v 3) 8)) hex_chars.
Proof.
  intros H. pose proof (variant_nibble v H) as Hv. unfold hex_chars. cbn in *. tauto.
Qed.

Lemma sorted_firstn {A} (R : A -> A -> Prop) (k : nat) (l : list A) :
  Sorted R l -> Sorted R (firstn k l).
Proof.
  revert l. induction k as [|k IH]; intros l Hs; [constructor|].
  destruct l as [|x l]; [constructor|]. cbn [firstn].
  apply Sorted_inv in Hs. destruct Hs as [Hs Hd]. constructor; [apply IH, Hs|].
  destruct k as [|k]; [constructor|]. destruct l as [|y l]; [constructor|].
  cbn [firstn]. constructor. inversion Hd. assumption.
Qed.

Lemma TxType_eqb_spec (a b : TxType) : TxType_eqb a b = true <-> a = b.
Proof. destruct a, b; cbn; split; congruence. Qed.


Lemma sum_filter_type_all (txs : list Transaction.t) (ty : TxType) :
  fold_right (fun t acc => Transaction.amount t + acc) 0
    (filter (fun t => TxType_eqb (Transaction.type t) ty) txs)
  = fold_right (fun t acc => if TxType_eqb (Transaction.type t) ty
                             then Transaction.amount t + acc else acc) 0 txs.
Proof.
  induction txs as [|t txs IH]; [reflexivity|]. cbn [filter fold_right].
  destruct (TxType_eqb (Transaction.type t) ty); cbn [fold_right]; lia.
Qed.

Lemma totals_group_by_type (sel : list Transaction.t) :
  totals (group_by_type sel) =
  (fold_right (fun t acc => Transaction.amount t + acc) 0
     (filter (fun t => TxType_eqb (Transaction.type t) IN) sel),
   fold_right (fun t acc => Transaction.amount t + acc) 0
     (filter (fun t => TxType_eqb (Transaction.type t) OUT) sel)).
Proof.
  unfold group_by_type. cbn [flat_map].
  destruct (filter (fun t => TxType_eqb (Transaction.type t) IN) sel) as [|a la];
  destruct (filter (fun t => TxType_eqb (Transaction.type t) OUT) sel) as [|b lb];
  reflexivity.
Qed.

(** ** Properties of the other queries *)

(** [generateUUID] fills the version-4 template: 36 characters, dashes at
    positions 8, 13, 18 and 23, the version digit 4 at 14, a variant digit
    among 8, 9, a, b at 19, and lowercase hexadecimal digits elsewhere, as
    long as every draw [Math.random() * 16 | 0] lies in [0, 16). *)
Theorem generateUUID_format (rnd : nat -> Z) :
  (forall i, (0 <= rnd i < 16)%Z) ->
  String.length (generateUUID rnd) = 36%nat /\
  (forall n, In n [8; 13; 18; 23]%nat -> String.get n (generateUUID rnd) = Some "-"%char) /\
  String.get 14 (generateUUID rnd) = Some "4"%char /\
  (exists c, String.get 19 (generateUUID rnd) = Some c /\ In c ["8"; "9"; "a"; "b"]%char) /\
  (forall n c, String.get n (generateUUID rnd) = Some c ->
               ~ In n [8; 13; 18; 23]%nat -> In c hex_chars).
Proof.
  intros Hr.
  assert (Hh : forall i, In (hex_digit (rnd i)) hex_chars)
    by (intros i; apply hex_digit_nibble, Hr).
  unfold generateUUID. cbn -[hex_digit].
  split; [reflexivity|]. split.
  { intros n Hn. cbn in Hn. repeat destruct Hn as [<- | Hn]; [..|contradiction];
      reflexivity. }
  split; [reflexivity|]. split.
  { eexists. split; [reflexivity|]. apply variant_nibble, Hr. }
  intros n c Hg Hn.
  do 36 (destruct n as [|n];
         [cbn -[hex_digit] in Hg; injection Hg as <-;
          first [ apply Hh | apply variant_hex, Hr
                | exfalso; apply Hn; cbn; tauto
                | unfold hex_chars; cbn; tauto ] |]).
  cbn -[hex_digit] in Hg. discriminate.
Qed.

Lemma generateUUID_format_witness :
  (forall i, (0 <= (fun _ : nat => 11%Z) i < 16)%Z) /\
  String.length (generateUUID (fun _ => 11%Z)) = 36%nat /\
  (forall n, In n [8; 13; 18; 23]%nat ->
             String.get n (generateUUID (fun _ => 11%Z)) = Some "-"%char) /\
  String.get 14 (generateUUID (fun _ => 11%Z)) = Some "4"%char /\
  (exists c, String.get 19 (generateUUID (fun _ => 11%Z)) = Some c /\
             In c ["8"; "9"; "a"; "b"]%char) /\
  (forall n c, String.get n (generateUUID (fun _ => 11%Z)) = Some c ->
               ~ In n [8; 13; 18; 23]%nat -> In c hex_chars).
Proof.
  assert (H : forall i, (0 <= (fun _ : nat => 11%Z) i < 16)%Z) by (intros; lia).
  split; [exact H | apply (generateUUID_format (fun _ => 11%Z) H)].
Defined.

(** [createWallet] inserts the row with [current_balance] equal to the
    initial balance and the icon defaulted to ['Wallet']; the insert fails on a
    duplicate id with the state unchanged, and otherwise [getWalletById]
    finds exactly the new row. *)
Theorem createWallet_then_getWalletById (id createdAt name : string) (ib : Z)
  (img icon : option string) (d : db) :
  let w := Wallet.mk id name ib ib img (Some (coalesce icon "Wallet")) createdAt in
  (In id (map Wallet.id (wallets d)) ->
     createWallet id createdAt name ib img icon d = (Throw SqlitePrimaryKey, d)) /\
  (~ In id (map Wallet.id (wallets d)) ->
     createWallet id createdAt name ib img icon d
       = (Ok w, mkdb (wallets d ++ [w]) (transactions d)) /\
     fst (getWalletById id (after (createWallet id createdAt name ib img icon) d))
       = Ok (Some w)).
Proof.
  intros w. split; intros H.
  - unfold createWallet, bind, insert_wallet_row, wallet_exists. cbn [Wallet.id].
    destruct (existsb (fun w0 => Wallet.id w0 =? id) (wallets d)) eqn:E; [reflexivity|].
    exfalso. exact (existsb_key_false Wallet.id id (wallets d) E H).
  - assert (Ec : createWallet id createdAt name ib img icon d
                 = (Ok w, mkdb (wallets d ++ [w]) (transactions d))).
    { unfold createWallet, bind, insert_wallet_row, wallet_exists, ret. cbn [Wallet.id].
      rewrite (not_in_existsb_key Wallet.id id (wallets d) H). reflexivity. }
    split; [exact Ec|].
    unfold after. rewrite Ec. cbn [snd].
    unfold getWalletById, bind, select_wallet_by_id, ret. cbn [wallets fst].
    rewrite filter_app, (filter_absent_nil Wallet.id id (wallets d) H).
    cbn. rewrite String.eqb_refl. reflexivity.
Qed.

(** [getWalletById] reads without writing; with the primary key unique, it
    returns [Some w] exactly for the row [w] whose id is the one asked, and
    [null] exactly when no row has that id. *)
Theorem getWalletById_spec (id : string) (d : db) :
  NoDup (map Wallet.id (wallets d)) ->
  snd (getWalletById id d) = d /\
  (forall w, fst (getWalletById id d) = Ok (Some w) <->
             In w (wallets d) /\ Wallet.id w = id) /\
  (fst (getWalletById id d) = Ok None <-> ~ In id (map Wallet.id (wallets d))).
Proof.
  intros Hnd. unfold getWalletById, bind, select_wallet_by_id, ret. cbn [fst snd].
  split; [reflexivity|].
  destruct (filter_key_at_most_one Wallet.id id (wallets d) Hnd) as [F | [w0 F]];
    cbn beta in F; rewrite F.
  - split.
    + intros w. split; [discriminate|]. intros [Hw Hk].
      exfalso. exact (not_in_empty_filter Wallet.id id (wallets d) w F Hw Hk).
    + split; [intros _|reflexivity]. intros Hin. apply in_map_iff in Hin.
      destruct Hin as [w [Hk Hw]]. exact (not_in_empty_filter Wallet.id id (wallets d) w F Hw Hk).
  - assert (Hw0 : In w0 (wallets d) /\ Wallet.id w0 = id).
    { assert (Hi : In w0 (filter (fun x => Wallet.id x =? id) (wallets d)))
        by (rewrite F; left; reflexivity).
      apply filter_In in Hi. destruct Hi as [Hi Hk]. apply String.eqb_eq in Hk.
      split; assumption. }
    split.
    + intros w. split.
      * intros E. injection E as <-. exact Hw0.
      * intros [Hw Hk]. rewrite (in_singleton_filter Wallet.id id (wallets d) w0 w F Hw Hk).
        reflexivity.
    + split; [discriminate|]. intros Hn. exfalso. apply Hn.
      apply in_map_iff. exists w0. split; [apply Hw0|apply Hw0].
Qed.

Lemma getWalletById_spec_witness :
  NoDup (map Wallet.id (wallets ledger_main)) /\
  snd (getWalletById "w-main" ledger_main) = ledger_main /\
  (forall w, fst (getWalletById "w-main" ledger_main) = Ok (Some w) <->
             In w (wallets ledger_main) /\ Wallet.id w = "w-main") /\
  (fst (getWalletById "w-main" ledger_main) = Ok None <->
   ~ In "w-main" (map Wallet.id (wallets ledger_main))).
Proof.
  assert (H : NoDup (map Wallet.id (wallets ledger_main))) by (vm_compute; repeat constructor; cbn; intuition discriminate).
  split; [exact H | apply (getWalletById_spec "w-main" ledger_main H)].
Defined.

(** [getAllWallets] reads without writing and returns every wallet row, each
    once, ordered by [created_at] from the newest to the oldest. *)
Theorem getAllWallets_ordered (d : db) :
  snd (getAllWallets d) = d /\
  match fst (getAllWallets d) with
  | Ok l => Permutation l (wallets d) /\
            Sorted (fun a b => String.leb (Wallet.created_at b) (Wallet.created_at a) = true) l
  | Throw _ => False
  end.
Proof.
  unfold getAllWallets, select_wallets_desc. cbn [fst snd]. split; [reflexivity|].
  split; [apply sort_by_perm|].
  apply (sort_by_sorted (fun a b => String.leb (Wallet.created_at b) (Wallet.created_at a))).
  intros a b. apply string_leb_flip.
Qed.

(** [getExportData] reads without writing and returns all the wallet rows
    and all the transaction rows, each table ordered by [created_at] from the
    oldest to the newest. *)
Theorem getExportData_ordered (d : db) :
  snd (getExportData d) = d /\
  match fst (getExportData d) with
  | Ok e => Permutation (ExportData.wallets e) (wallets d) /\
            Permutation (ExportData.transactions e) (transactions d) /\
            Sorted (fun a b => String.leb (Wallet.created_at a) (Wallet.created_at b) = true)
              (ExportData.wallets e) /\
            Sorted (fun a b => String.leb (Transaction.created_at a)
                                          (Transaction.created_at b) = true)
              (ExportData.transactions e)
  | Throw _ => False
  end.
Proof.
  unfold getExportData. cbn [fst snd ExportData.wallets ExportData.transactions].
  split; [reflexivity|].
  split; [apply sort_by_perm|]. split; [apply sort_by_perm|]. split.
  - apply (sort_by_sorted (fun a b => String.leb (Wallet.created_at a) (Wallet.created_at b))).
    intros a b. apply string_leb_flip.
  - apply (sort_by_sorted (fun a b => String.leb (Transaction.created_at a)
                                                 (Transaction.created_at b))).
    intros a b. apply string_leb_flip.
Qed.

(** [getTransactionsByWallet(walletId, filterType)] reads without writing;
    it returns exactly the transactions of that wallet (of the given type when
    one is given), each once, from the newest to the oldest. *)
Theorem getTransactionsByWallet_spec (wid : string) (filterType : option TxType) (d : db) :
  snd (getTransactionsByWallet wid filterType d) = d /\
  match fst (getTransactionsByWallet wid filterType d) with
  | Ok l =>
      (forall t, In t l <->
                 In t (transactions d) /\ Transaction.wallet_id t = wid /\
                 match filterType with Some k => Transaction.type t = k | None => True end) /\
      (NoDup (map Transaction.id (transactions d)) -> NoDup (map Transaction.id l)) /\
      Sorted (fun a b => String.leb (Transaction.created_at b)
                                    (Transaction.created_at a) = true) l
  | Throw _ => False
  end.
Proof.
  unfold getTransactionsByWallet, select_transactions_of. cbn [fst snd].
  split; [reflexivity|].
  set (keep := fun t => (Transaction.wallet_id t =? wid) &&
                        match filterType with
                        | Some k => TxType_eqb (Transaction.type t) k
                        | None => true
                        end).
  set (le := fun a b => String.leb (Transaction.created_at b) (Transaction.created_at a)).
  pose proof (sort_by_perm le (filter keep (transactions d))) as Hp.
  split; [|split].
  - intros t. split.
    + intros Ht. apply (Permutation_in _ Hp), filter_In in Ht. destruct Ht as [Ht Hk].
      unfold keep in Hk. apply andb_prop in Hk. destruct Hk as [Hw Hty].
      apply String.eqb_eq in Hw. split; [exact Ht|]. split; [exact Hw|].
      destruct filterType as [k|]; [apply TxType_eqb_spec, Hty | exact I].
    + intros [Ht [Hw Hty]]. apply (Permutation_in _ (Permutation_sym Hp)), filter_In.
      split; [exact Ht|]. unfold keep. apply andb_true_intro. split.
      * apply String.eqb_eq, Hw.
      * destruct filterType as [k|]; [apply TxType_eqb_spec, Hty | reflexivity].
  - intros Hnd. apply (Permutation_NoDup (Permutation_map _ (Permutation_sym Hp))).
    apply NoDup_map_filter, Hnd.
  - apply (sort_by_sorted le). intros a b. apply string_leb_flip.
Qed.

(** [getRecentTransactions(limit)] reads without writing and returns
    transactions from the newest to the oldest: with [limit >= 0] the first
    [min(limit, count)] of them, with a negative limit (no limit in SQLite)
    all of them; no transaction left out is newer than one returned. *)
Theorem getRecentTransactions_spec (limit : Z) (d : db) :
  snd (getRecentTransactions limit d) = d /\
  match fst (getRecentTransactions limit d) with
  | Ok l =>
      ((0 <= limit)%Z -> length l = Nat.min (Z.to_nat limit) (length (transactions d))) /\
      ((limit < 0)%Z -> Permutation l (transactions d)) /\
      Sorted (fun a b => String.leb (Transaction.created_at b)
                                    (Transaction.created_at a) = true) l /\
      exists rest, Permutation (l ++ rest) (transactions d) /\
        forall r o, In r l -> In o rest ->
                    String.leb (Transaction.created_at o) (Transaction.created_at r) = true
  | Throw _ => False
  end.
Proof.
  unfold getRecentTransactions, sql_limit. cbn [fst snd]. split; [reflexivity|].
  set (le := fun a b => String.leb (Transaction.created_at b) (Transaction.created_at a)).
  set (S := sort_by le (transactions d)).
  assert (Hp : Permutation S (transactions d)) by apply sort_by_perm.
  assert (Hs : Sorted (fun a b => le a b = true) S)
    by (apply sort_by_sorted; intros a b; apply string_leb_flip).
  destruct (limit <? 0)%Z eqn:El.
  - apply Z.ltb_lt in El. split; [intros; lia|]. split; [intros; exact Hp|].
    split; [exact Hs|]. exists []. rewrite app_nil_r. split; [exact Hp|].
    intros r o _ [].
  - apply Z.ltb_ge in El. split.
    { intros _. rewrite length_firstn, (Permutation_length Hp). reflexivity. }
    split; [intros; lia|]. split; [apply sorted_firstn, Hs|].
    exists (skipn (Z.to_nat limit) S). rewrite firstn_skipn. split; [exact Hp|].
    intros r o Hr Ho.
    apply (sorted_app_le (fun a b => le a b = true) (firstn (Z.to_nat limit) S)
                         (skipn (Z.to_nat limit) S)); [|rewrite firstn_skipn; exact Hs|
                                                       exact Hr | exact Ho].
    intros x y z Hxy Hyz. unfold le in *.
    exact (string_leb_trans _ _ _ Hyz Hxy).
Qed.



(** [getOverallStats(walletId)] with no wallet id, or with the empty string
    (falsy in JavaScript), does not filter: it reads without writing and
    returns the IN and OUT totals and the count of all transactions. *)
Theorem getOverallStats_all_wallets (walletId : option string) (d : db) :
  walletId = None \/ walletId = Some "" ->
  getOverallStats walletId d =
    (Ok (OverallStat.mk
           (fold_right (fun t acc => if TxType_eqb (Transaction.type t) IN
                                     then Transaction.amount t + acc else acc) 0
              (transactions d))
           (fold_right (fun t acc => if TxType_eqb (Transaction.type t) OUT
                                     then Transaction.amount t + acc else acc) 0
              (transactions d))
           (Z.of_nat (length (transactions d)))), d).
Proof.
  intros Hw.
  assert (Ht : truthy walletId = false) by (destruct Hw as [-> | ->]; reflexivity).
  unfold getOverallStats. rewrite Ht.
  unfold bind, select_totals_by_type, select_count, ret. cbn [rows_of fst snd].
  rewrite totals_group_by_type. cbn [fst snd first_or_zero].
  rewrite !sum_filter_type_all. reflexivity.
Qed.

Lemma getOverallStats_all_wallets_witness :
  (Some "" = None \/ Some "" = Some "") /\
  getOverallStats (Some "") ledger_main =
    (Ok (OverallStat.mk
           (fold_right (fun t acc => if TxType_eqb (Transaction.type t) IN
                                     then Transaction.amount t + acc else acc) 0
              (transactions ledger_main))
           (fold_right (fun t acc => if TxType_eqb (Transaction.type t) OUT
                                     then Transaction.amount t + acc else acc) 0
              (transactions ledger_main))
           (Z.of_nat (length (transactions ledger_main)))), ledger_main).
Proof.
  assert (H : Some "" = None \/ Some "" = Some "") by (right; reflexivity).
  split; [exact H | exact (getOverallStats_all_wallets (Some "") ledger_main H)].
Defined.

Lemma wallet_exists_in (wid : string) (d : db) :
  wallet_exists wid d = true -> In wid (map Wallet.id (wallets d)).
Proof.
  unfold wallet_exists. intros H. apply existsb_exists in H.
  destruct H as [w [Hw Hk]]. apply String.eqb_eq in Hk. subst wid. apply in_map, Hw.
Qed.

Lemma transaction_exists_of (t : Transaction.t) (d : db) :
  In t (transactions d) -> transaction_exists (Transaction.id t) d = true.
Proof.
  intros H. unfold transaction_exists. apply existsb_exists.
  exists t. split; [exact H | apply String.eqb_refl].
Qed.

Lemma fk_ok_recalc (wid : string) (d : db) :
  fk_ok d -> fk_ok (after (recalculateBalance wid) d).
Proof.
  intros H. destruct (recalculateBalance_frame wid d) as [Hi Ht].
  unfold fk_ok. rewrite Hi, Ht. exact H.
Qed.

Lemma run_mutation_fk_ok (m : mutation) (d : db) :
  fk_ok d -> fk_ok (after (run_mutation m) d).
Proof.
  intros H.
  destruct m as [id ca wid ty amt rs img | tid wid ty amt rs img | tid | id name ib img icon];
    cbn [run_mutation].
  - unfold after, createTransaction. step_db. cbn [Transaction.id Transaction.wallet_id].
    destruct (transaction_exists id d); [exact H|].
    destruct (negb (wallet_exists wid d)) eqn:Ew; [exact H|].
    unfold ret. cbn [snd]. apply fk_ok_recalc.
    intros t Ht. cbn [transactions wallets] in *. apply in_app_or in Ht.
    destruct Ht as [Ht|[<-|[]]]; [exact (H t Ht)|].
    apply wallet_exists_in. apply negb_false_iff, Ew.
  - unfold after, updateTransaction. step_db.
    destruct (transaction_exists tid d && negb (wallet_exists wid d)) eqn:G; [exact H|].
    step_db.
    assert (H1 : fk_ok (mkdb (wallets d)
               (map (fun t => if Transaction.id t =? tid
                              then Transaction.mk (Transaction.id t) wid ty amt
                                     rs img (Transaction.created_at t)
                              else t) (transactions d)))).
    { intros t Ht. cbn [transactions wallets] in *. apply in_map_iff in Ht.
      destruct Ht as [t0 [<- Ht0]].
      destruct (Transaction.id t0 =? tid) eqn:E; [|exact (H t0 Ht0)].
      cbn [Transaction.wallet_id]. apply String.eqb_eq in E.
      pose proof (transaction_exists_of t0 d Ht0) as Hx. rewrite E in Hx. rewrite Hx in G.
      cbn [andb] in G. apply wallet_exists_in. apply negb_false_iff, G. }
    apply (fk_ok_recalc wid) in H1.
    match goal with
    | |- fk_ok (snd ((if ?b then _ else _) _)) => destruct b
    end; [apply fk_ok_recalc, H1 | exact H1].
  - unfold after, deleteTransaction. step_db.
    assert (H1 : fk_ok (mkdb (wallets d)
               (filter (fun t => negb (Transaction.id t =? tid)) (transactions d)))).
    { intros t Ht. cbn [transactions wallets] in *. apply filter_In in Ht.
      exact (H t (proj1 Ht)). }
    match goal with
    | |- fk_ok (snd ((if ?b then _ else _) _)) => destruct b
    end; [apply fk_ok_recalc, H1 | exact H1].
  - unfold after, updateWallet. step_db. apply fk_ok_recalc.
    unfold fk_ok. rewrite map_wallets_ids by reflexivity. exact H.
Qed.

Lemma sum_amount_absent (txs : list Transaction.t) (wid : string) (ty : TxType) :
  (forall t, In t txs -> Transaction.wallet_id t <> wid) -> sum_amount txs wid ty = 0.
Proof.
  induction txs as [|t txs IH]; intros H; [reflexivity|].
  unfold sum_amount in *. cbn [fold_right].
  destruct (Transaction.wallet_id t =? wid) eqn:E.
  - apply String.eqb_eq in E. exfalso. exact (H t (or_introl eq_refl) E).
  - cbn [andb]. apply IH. intros t' Ht'. apply H. right. exact Ht'.
Qed.

Lemma createWallet_op_after (rnd : nat -> Z) (ca name : string) (ib : Z)
  (img icon : option string) (d : db) :
  after (run_op (OpCreateWallet rnd ca name ib img icon)) d =
  if wallet_exists (generateUUID rnd) d then d
  else mkdb (wallets d ++ [Wallet.mk (generateUUID rnd) name ib ib img
                             (Some (coalesce icon "Wallet")) ca])
            (transactions d).
Proof.
  unfold after, run_op, createWallet, bind, insert_wallet_row, ret. cbn [Wallet.id].
  destruct (wallet_exists (generateUUID rnd) d); reflexivity.
Qed.

Lemma createWallet_op_ok (rnd : nat -> Z) (ca name : string) (ib : Z)
  (img icon : option string) (d : db) :
  ledger_ok d -> fk_ok d ->
  ledger_ok (after (run_op (OpCreateWallet rnd ca name ib img icon)) d) /\
  fk_ok (after (run_op (OpCreateWallet rnd ca name ib img icon)) d).
Proof.
  intros [[Hw Ht] [He Hc]] Hfk. rewrite createWallet_op_after.
  pose proof (generateUUID_nonempty rnd) as Hne. revert Hne.
  generalize (generateUUID rnd) as u. intros u Hne.
  destruct (wallet_exists u d) eqn:Ex;
    [split; [split; [split|split]|]; assumption|].
  apply existsb_key_false in Ex.
  split; [split; [split|split]|].
  - cbn [wallets]. rewrite map_app. apply NoDup_snoc; [exact Hw | exact Ex].
  - exact Ht.
  - cbn [wallets]. rewrite map_app. intros Hin. apply in_app_or in Hin.
    destruct Hin as [Hin|[Hin|[]]]; [exact (He Hin)|].
    exact (Hne Hin).
  - unfold consistent in *. cbn [wallets transactions]. apply Forall_app. split; [exact Hc|].
    constructor; [|constructor]. unfold balanced.
    cbn [Wallet.id Wallet.current_balance Wallet.initial_balance].
    assert (Hn : forall t, In t (transactions d) -> Transaction.wallet_id t <> u).
    { intros t Hin E. apply Ex. rewrite <- E. exact (Hfk t Hin). }
    rewrite !(sum_amount_absent _ _ _ Hn). lia.
  - intros t Hin. cbn [wallets transactions] in *. rewrite map_app.
    apply in_or_app. left. exact (Hfk t Hin).
Qed.

Lemma deleteWallet_ok (id : string) (d : db) :
  ledger_ok d -> fk_ok d ->
  ledger_ok (after (deleteWallet id) d) /\ fk_ok (after (deleteWallet id) d).
Proof.
  intros [[Hw Ht] [He Hc]] Hfk.
  unfold after, deleteWallet, delete_wallet_row. cbn [snd].
  split; [split; [split|split]|].
  - apply NoDup_map_filter, Hw.
  - apply NoDup_map_filter, Ht.
  - cbn [wallets]. intros Hin. apply in_map_iff in Hin. destruct Hin as [w [Hk Hin]].
    apply filter_In in Hin. apply He. rewrite <- Hk. apply in_map, Hin.
  - unfold consistent in *. rewrite Forall_forall in *. cbn [wallets transactions].
    intros w Hin. apply filter_In in Hin. destruct Hin as [Hin Hk].
    apply negb_true_iff, String.eqb_neq in Hk.
    specialize (Hc w Hin). unfold balanced in *.
    rewrite !sum_amount_filter_frame; [exact Hc| |];
      intros t _ Hp E; apply negb_false_iff, String.eqb_eq in Hp; congruence.
  - intros t Hin. cbn [wallets transactions] in *. apply filter_In in Hin.
    destruct Hin as [Hin Hk]. apply negb_true_iff, String.eqb_neq in Hk.
    specialize (Hfk t Hin). apply in_map_iff in Hfk. destruct Hfk as [w [Ew Hw']].
    apply in_map_iff. exists w. split; [exact Ew|]. apply filter_In. split; [exact Hw'|].
    apply negb_true_iff, String.eqb_neq. congruence.
Qed.

Lemma updateWalletDirect_eq (id name : string) (cb : Z) (icon : option string) (d : db) :
  updateWalletDirect id name cb icon d =
  (Ok tt, map_wallets (fun w =>
             Wallet.mk (Wallet.id w) name
               (cb - sum_amount (transactions d) id IN + sum_amount (transactions d) id OUT)
               cb (Wallet.image_uri w) (Some (coalesce icon "Wallet")) (Wallet.created_at w))
             id d).
Proof. reflexivity. Qed.

Lemma updateWalletDirect_ok (id name : string) (cb : Z) (icon : option string) (d : db) :
  ledger_ok d -> fk_ok d ->
  ledger_ok (after (updateWalletDirect id name cb icon) d) /\
  fk_ok (after (updateWalletDirect id name cb icon) d).
Proof.
  intros [Hk [He Hc]] Hfk. unfold after. rewrite updateWalletDirect_eq. cbn [snd].
  match goal with |- context [map_wallets ?f id d] => set (g := f) end.
  assert (Hid : map Wallet.id (wallets (map_wallets g id d)) = map Wallet.id (wallets d))
    by (apply map_wallets_ids; reflexivity).
  split; [split; [|split]|].
  - unfold keys_unique in *. rewrite Hid. exact Hk.
  - rewrite Hid. exact He.
  - unfold consistent in *. rewrite Forall_forall in *. intros w' Hw'.
    apply in_map_wallets in Hw'. destruct Hw' as [w [Hw ->]].
    destruct (Wallet.id w =? id) eqn:E.
    + apply String.eqb_eq in E. unfold balanced. cbn [g Wallet.id Wallet.current_balance
                                                       Wallet.initial_balance transactions].
      unfold map_wallets. cbn [transactions]. rewrite E. lia.
    + exact (Hc w Hw).
  - unfold fk_ok. rewrite Hid. exact Hfk.
Qed.

(** Every write the app performs ([createWallet] with a generated id,
    [updateWallet], [deleteWallet], [updateWalletDirect], [createTransaction],
    [updateTransaction], [deleteTransaction]), in any order and whether or not
    a call throws, keeps a ledger with unique primary keys, no empty wallet
    id, every [current_balance] equal to [initial + SUM(IN) - SUM(OUT)], and
    every transaction in an existing wallet. *)
Theorem run_ops_invariant (os : list app_op) (d : db) :
  ledger_ok d -> fk_ok d -> ledger_ok (run_ops os d) /\ fk_ok (run_ops os d).
Proof.
  unfold run_ops. revert d.
  induction os as [|o os IH]; intros d Hl Hf; [split; assumption|].
  cbn [fold_left]. apply IH;
  destruct o as [m | rnd ca name ib img icon | id | id name cb icon]; cbn [run_op].
  all: first [ apply run_mutation_ledger_ok, Hl | apply run_mutation_fk_ok, Hf
             | apply (createWallet_op_ok rnd ca name ib img icon d Hl Hf)
             | apply (deleteWallet_ok id d Hl Hf)
             | apply (updateWalletDirect_ok id name cb icon d Hl Hf) ].
Qed.

Lemma run_ops_invariant_witness :
  (ledger_ok ledger_main /\ fk_ok ledger_main) /\
  ledger_ok (run_ops [OpCreateWallet (fun _ => 7%Z) "2026-02-01T00:00:00.000Z" "Cash" 5000
                        None None;
                      OpMutation (CreateTransaction "t-3" "2026-02-02T00:00:00.000Z" "w-main"
                                    OUT 1000 None None);
                      OpDeleteWallet "w-main"] ledger_main) /\
  fk_ok (run_ops [OpCreateWallet (fun _ => 7%Z) "2026-02-01T00:00:00.000Z" "Cash" 5000
                    None None;
                  OpMutation (CreateTransaction "t-3" "2026-02-02T00:00:00.000Z" "w-main"
                                OUT 1000 None None);
                  OpDeleteWallet "w-main"] ledger_main).
Proof.
  assert (Hl : ledger_ok ledger_main).
  { split; [split|split].
    - cbn. constructor; [intros []|constructor].
    - cbn. constructor; [intros [H|[]]; discriminate|].
      constructor; [intros []|constructor].
    - cbn. intros [H|[]]. discriminate.
    - unfold consistent. repeat constructor. }
  assert (Hf : fk_ok ledger_main).
  { intros t Ht. cbn in Ht. destruct Ht as [<-|[<-|[]]]; left; reflexivity. }
  split; [split; assumption|].
  exact (run_ops_invariant _ ledger_main Hl Hf).
Defined.

Lemma map_wallets_noop (f : Wallet.t -> Wallet.t) (wid : string) (d : db) :
  (forall w, In w (wallets d) -> Wallet.id w = wid -> f w = w) ->
  map_wallets f wid d = d.
Proof.
  destruct d as [ws txs]. unfold map_wallets; cbn [wallets transactions].
  intros H. f_equal. induction ws as [|w ws IH]; [reflexivity|]. cbn [map].
  f_equal.
  - destruct (Wallet.id w =? wid) eqn:E; [|reflexivity].
    apply H; [left; reflexivity | apply String.eqb_eq, E].
  - apply IH. intros w' Hw'. apply H. right. exact Hw'.
Qed.

Lemma recalculateBalance_noop (wid : string) (d : db) :
  NoDup (map Wallet.id (wallets d)) -> consistent d ->
  after (recalculateBalance wid) d = d.
Proof.
  intros Hnd Hc. unfold after. rewrite recalculateBalance_eq. cbn [snd].
  destruct (filter_key_at_most_one Wallet.id wid (wallets d) Hnd) as [F | [w0 F]];
    cbn beta in F; rewrite F; cbn [map]; [reflexivity|].
  assert (Hw0 : In w0 (wallets d) /\ Wallet.id w0 = wid).
  { assert (Hi : In w0 (filter (fun x => Wallet.id x =? wid) (wallets d)))
      by (rewrite F; left; reflexivity).
    apply filter_In in Hi. destruct Hi as [Hi Hk]. apply String.eqb_eq in Hk.
    split; assumption. }
  destruct Hw0 as [Hin Hk]. apply map_wallets_noop. intros w Hw Hkw.
  rewrite (in_singleton_filter Wallet.id wid (wallets d) w0 w F Hw Hkw).
  unfold consistent in Hc. rewrite Forall_forall in Hc. specialize (Hc w0 Hin).
  unfold balanced in Hc. rewrite Hk in Hc.
  destruct w0 as [i n ib cb img ic ca]. unfold set_current_balance. cbn in *.
  rewrite <- Hc. reflexivity.
Qed.


Lemma filter_negb_absent {A} (key : A -> string) (k : string) (l : list A) :
  ~ In k (map key l) -> filter (fun x => negb (key x =? k)) l = l.
Proof.
  induction l as [|x l IH]; intros H; [reflexivity|].
  cbn [filter]. cbn [map] in H.
  destruct (key x =? k) eqn:E.
  - apply String.eqb_eq in E. exfalso. apply H. left. exact E.
  - cbn [negb]. rewrite IH; [reflexivity|]. intros Hin. apply H. right. exact Hin.
Qed.

Lemma map_update_absent (tid wid : string) (ty : TxType) (amount : Z)
  (reason img : option string) (txs : list Transaction.t) :
  ~ In tid (map Transaction.id txs) ->
  map (fun t => if Transaction.id t =? tid
                then Transaction.mk (Transaction.id t) wid ty amount
                       reason img (Transaction.created_at t)
                else t) txs = txs.
Proof.
  induction txs as [|t txs IH]; intros H; [reflexivity|].
  cbn [map] in *. destruct (Transaction.id t =? tid) eqn:E.
  - apply String.eqb_eq in E. exfalso. apply H. left. exact E.
  - rewrite IH; [reflexivity|]. intros Hin. apply H. right. exact Hin.
Qed.


Lemma bind_throw_inv {S A B} (m : M S A) (k : A -> M S B) (s s'' : S) (e : error) :
  bind m k s = (Throw e, s'') ->
  m s = (Throw e, s'') \/ exists a s', m s = (Ok a, s') /\ k a s' = (Throw e, s'').
Proof.
  unfold bind. destruct (m s) as [[a|e'] s']; intros H.
  - right. exists a, s'. split; [reflexivity | exact H].
  - left. injection H as -> ->. reflexivity.
Qed.

Lemma for_each_insert_wallets_throw (g : Wallet.t -> Wallet.t) (ws : list Wallet.t)
  (d d' : db) (e : error) :
  for_each (fun w => insert_wallet_row (g w)) ws d = (Throw e, d') ->
  e = SqlitePrimaryKey /\
  exists k, d' = mkdb (wallets d ++ map g (firstn k ws)) (transactions d).
Proof.
  revert d. induction ws as [|w ws IH]; intros d H; [discriminate|].
  cbn [for_each] in H. apply bind_throw_inv in H.
  destruct H as [H | [[] [d1 [H1 H2]]]]; unfold insert_wallet_row in *.
  - destruct (wallet_exists (Wallet.id (g w)) d); [|discriminate].
    injection H as <- <-. split; [reflexivity|]. exists 0%nat.
    destruct d. cbn. rewrite app_nil_r. reflexivity.
  - destruct (wallet_exists (Wallet.id (g w)) d); [discriminate|].
    injection H1 as <-. destruct (IH _ H2) as [He [k Hk]].
    split; [exact He|]. exists (S k). rewrite Hk. cbn [wallets transactions firstn map].
    rewrite <- app_assoc. reflexivity.
Qed.

Lemma for_each_insert_transactions_throw (ts : list Transaction.t) (d d' : db) (e : error) :
  for_each (fun t => insert_transaction_row t) ts d = (Throw e, d') ->
  (e = SqlitePrimaryKey \/ e = SqliteForeignKey) /\
  exists k, d' = mkdb (wallets d) (transactions d ++ firstn k ts).
Proof.
  revert d. induction ts as [|t ts IH]; intros d H; [discriminate|].
  cbn [for_each] in H. apply bind_throw_inv in H.
  destruct H as [H | [[] [d1 [H1 H2]]]]; unfold insert_transaction_row in *.
  - destruct (transaction_exists (Transaction.id t) d);
      [|destruct (negb (wallet_exists (Transaction.wallet_id t) d)); [|discriminate]];
      injection H as <- <-; (split; [auto|]); exists 0%nat;
      destruct d; cbn; rewrite app_nil_r; reflexivity.
  - destruct (transaction_exists (Transaction.id t) d); [discriminate|].
    destruct (negb (wallet_exists (Transaction.wallet_id t) d)); [discriminate|].
    injection H1 as <-. destruct (IH _ H2) as [He [k Hk]].
    split; [exact He|]. exists (S k). rewrite Hk. cbn [wallets transactions firstn].
    rewrite <- app_assoc. reflexivity.
Qed.

Lemma for_each_insert_transactions_inv (ts : list Transaction.t) (d d' : db) :
  for_each (fun t => insert_transaction_row t) ts d = (Ok tt, d') ->
  NoDup (map Transaction.id (transactions d)) ->
  NoDup (map Transaction.id (transactions d) ++ map Transaction.id ts) /\
  (forall t, In t ts -> In (Transaction.wallet_id t) (map Wallet.id (wallets d))).
Proof.
  revert d. induction ts as [|t ts IH]; intros d H Hnd.
  - rewrite app_nil_r. split; [exact Hnd | intros t []].
  - cbn [for_each] in H. apply bind_ok_inv in H. destruct H as [[] [d1 [H1 H2]]].
    unfold insert_transaction_row in H1.
    destruct (transaction_exists (Transaction.id t) d) eqn:Ex; [discriminate|].
    destruct (negb (wallet_exists (Transaction.wallet_id t) d)) eqn:Ew; [discriminate|].
    injection H1 as <-.
    destruct (IH _ H2) as [Hn Hf].
    { cbn [transactions]. rewrite map_app. apply NoDup_snoc; [exact Hnd|].
      apply (existsb_key_false Transaction.id). exact Ex. }
    cbn [transactions wallets] in Hn, Hf. rewrite map_app, <- app_assoc in Hn.
    split; [exact Hn|]. intros t' [<- | Ht'].
    + apply wallet_exists_in. apply negb_false_iff, Ew.
    + exact (Hf t' Ht').
Qed.





(** [deleteTransaction(id)] with an id no transaction has succeeds and
    changes nothing: no row is deleted and no wallet is recalculated. *)
Theorem deleteTransaction_unknown_id (tid : string) (d : db) :
  ~ In tid (map Transaction.id (transactions d)) -> deleteTransaction tid d = (Ok tt, d).
Proof.
  intros Ht. unfold deleteTransaction. step_db.
  rewrite (filter_absent_nil Transaction.id tid _ Ht). cbn [map truthy].
  rewrite (filter_negb_absent Transaction.id tid _ Ht). destruct d. reflexivity.
Qed.

Lemma deleteTransaction_unknown_id_witness :
  ~ In "t-none" (map Transaction.id (transactions ledger_main)) /\
  deleteTransaction "t-none" ledger_main = (Ok tt, ledger_main).
Proof.
  assert (Ht : ~ In "t-none" (map Transaction.id (transactions ledger_main)))
    by (cbn; intros [H|[H|[]]]; discriminate).
  split; [exact Ht | exact (deleteTransaction_unknown_id "t-none" ledger_main Ht)].
Defined.

(** [updateTransaction(id, walletId, ...)] with an id no transaction has
    succeeds and leaves a balanced ledger unchanged, even when [walletId]
    names no wallet: the UPDATE touches no row, so the foreign key is not
    checked, and the recalculation of [walletId] rewrites the balance it
    already has. *)
Theorem updateTransaction_unknown_id (tid wid : string) (ty : TxType) (amount : Z)
  (reason img : option string) (d : db) :
  NoDup (map Wallet.id (wallets d)) -> consistent d ->
  ~ In tid (map Transaction.id (transactions d)) ->
  updateTransaction tid wid ty amount reason img d = (Ok tt, d).
Proof.
  intros Hnw Hc Ht. unfold updateTransaction. step_db.
  unfold transaction_exists at 1. rewrite (not_in_existsb_key Transaction.id tid _ Ht).
  cbn [andb]. step_db.
  rewrite (filter_absent_nil Transaction.id tid _ Ht). cbn [map truthy andb].
  rewrite map_update_absent by exact Ht.
  destruct d as [ws ts]. rewrite recalculateBalance_noop by assumption. reflexivity.
Qed.

Lemma updateTransaction_unknown_id_witness :
  (NoDup (map Wallet.id (wallets ledger_main)) /\ consistent ledger_main /\
   ~ In "t-none" (map Transaction.id (transactions ledger_main))) /\
  updateTransaction "t-none" "w-none" IN 1 None None ledger_main = (Ok tt, ledger_main).
Proof.
  assert (Hn : NoDup (map Wallet.id (wallets ledger_main)))
    by (cbn; constructor; [intros []|constructor]).
  assert (Hc : consistent ledger_main) by (unfold consistent; repeat constructor).
  assert (Ht : ~ In "t-none" (map Transaction.id (transactions ledger_main)))
    by (cbn; intros [H|[H|[]]]; discriminate).
  split; [split; [exact Hn | split; [exact Hc | exact Ht]]|].
  exact (updateTransaction_unknown_id "t-none" "w-none" IN 1 None None ledger_main Hn Hc Ht).
Defined.

(** [createTransaction] under a fresh id into a wallet that does not exist
    is refused by the foreign key, and nothing is written. *)
Theorem createTransaction_missing_wallet (id createdAt wid : string) (ty : TxType)
  (amount : Z) (reason img : option string) (d : db) :
  ~ In id (map Transaction.id (transactions d)) -> ~ In wid (map Wallet.id (wallets d)) ->
  createTransaction id createdAt wid ty amount reason img d = (Throw SqliteForeignKey, d).
Proof.
  intros Ht Hw. unfold createTransaction. step_db.
  cbn [Transaction.id Transaction.wallet_id]. unfold transaction_exists, wallet_exists.
  rewrite (not_in_existsb_key Transaction.id id _ Ht), (not_in_existsb_key Wallet.id wid _ Hw).
  reflexivity.
Qed.

Lemma createTransaction_missing_wallet_witness :
  (~ In "t-new" (map Transaction.id (transactions ledger_main)) /\
   ~ In "w-none" (map Wallet.id (wallets ledger_main))) /\
  createTransaction "t-new" "2026-01-04T08:00:00.000Z" "w-none" IN 5 None None ledger_main
  = (Throw SqliteForeignKey, ledger_main).
Proof.
  assert (Ht : ~ In "t-new" (map Transaction.id (transactions ledger_main)))
    by (cbn; intros [H|[H|[]]]; discriminate).
  assert (Hw : ~ In "w-none" (map Wallet.id (wallets ledger_main)))
    by (cbn; intros [H|[]]; discriminate).
  split; [split; [exact Ht | exact Hw]|].
  exact (createTransaction_missing_wallet "t-new" "2026-01-04T08:00:00.000Z" "w-none" IN 5
           None None ledger_main Ht Hw).
Defined.

(** [updateTransaction] of an existing transaction into a wallet that does
    not exist is refused by the foreign key, and nothing is written. *)
Theorem updateTransaction_missing_wallet (tid wid : string) (ty : TxType) (amount : Z)
  (reason img : option string) (d : db) :
  In tid (map Transaction.id (transactions d)) -> ~ In wid (map Wallet.id (wallets d)) ->
  updateTransaction tid wid ty amount reason img d = (Throw SqliteForeignKey, d).
Proof.
  intros Ht Hw. unfold updateTransaction. step_db.
  apply in_map_iff in Ht. destruct Ht as [t [Hk Hin]].
  pose proof (transaction_exists_of t d Hin) as Ex. rewrite Hk in Ex. rewrite Ex.
  unfold wallet_exists. rewrite (not_in_existsb_key Wallet.id wid _ Hw). reflexivity.
Qed.

Lemma updateTransaction_missing_wallet_witness :
  (In "t-in" (map Transaction.id (transactions ledger_main)) /\
   ~ In "w-none" (map Wallet.id (wallets ledger_main))) /\
  updateTransaction "t-in" "w-none" IN 200000 None None ledger_main
  = (Throw SqliteForeignKey, ledger_main).
Proof.
  assert (Ht : In "t-in" (map Transaction.id (transactions ledger_main))) by (left; reflexivity).
  assert (Hw : ~ In "w-none" (map Wallet.id (wallets ledger_main)))
    by (cbn; intros [H|[]]; discriminate).
  split; [split; [exact Ht | exact Hw]|].
  exact (updateTransaction_missing_wallet "t-in" "w-none" IN 200000 None None ledger_main Ht Hw).
Defined.

(** [importData(data)] succeeds exactly when the document's wallet ids are
    distinct, its transaction ids are distinct, and each of its transactions
    names one of its wallets; what was in the database before plays no
    part. *)
Theorem importData_success_iff (data : ExportData.t) (d : db) :
  fst (importData data d) = Ok tt <->
  NoDup (map Wallet.id (ExportData.wallets data)) /\
  NoDup (map Transaction.id (ExportData.transactions data)) /\
  (forall t, In t (ExportData.transactions data) ->
     In (Transaction.wallet_id t) (map Wallet.id (ExportData.wallets data))).
Proof.
  split.
  - intros H. destruct (importData data d) as [r d'] eqn:E. cbn [fst] in H. subst r.
    unfold importData in E.
    apply bind_ok_inv in E. destruct E as [[] [d1 [H1 E]]].
    unfold delete_all_transactions in H1. injection H1 as <-.
    apply bind_ok_inv in E. destruct E as [[] [d2 [H2 E]]].
    unfold delete_all_wallets in H2. injection H2 as <-.
    apply bind_ok_inv in E. destruct E as [[] [d3 [H3 E]]].
    destruct (for_each_insert_wallets _ _ _ _ H3) as [Hw3 [Ht3 Hn3]].
    cbn [wallets transactions app] in Hw3, Ht3, Hn3.
    specialize (Hn3 (NoDup_nil _)). rewrite Hw3, map_map in Hn3.
    apply bind_ok_inv in E. destruct E as [[] [d4 [H4 _]]].
    destruct (for_each_insert_transactions_inv _ _ _ H4) as [Hn4 Hf4];
      [rewrite Ht3; constructor|].
    rewrite Ht3 in Hn4. cbn [map app] in Hn4. rewrite Hw3, map_map in Hf4.
    split; [exact Hn3|]. split; [exact Hn4 | exact Hf4].
  - intros [Hw [Ht Hf]]. rewrite (importData_succeeds data d Hw Ht Hf). reflexivity.
Qed.

(** When [importData] throws, the rows the database held before are lost:
    its DELETEs are not undone, so what is left is either a prefix of the
    document's wallets (icon defaulted) with no transaction, after a
    duplicate wallet id, or all of its wallets and a prefix of its
    transactions, after a duplicate transaction id or a missing wallet. *)
Theorem importData_failure_wipes (data : ExportData.t) (d : db) (e : error) :
  fst (importData data d) = Throw e ->
  (e = SqlitePrimaryKey /\
   exists k, snd (importData data d) =
             mkdb (map import_wallet_row (firstn k (ExportData.wallets data))) []) \/
  ((e = SqlitePrimaryKey \/ e = SqliteForeignKey) /\
   exists k, snd (importData data d) =
             mkdb (map import_wallet_row (ExportData.wallets data))
                  (firstn k (ExportData.transactions data))).
Proof.
  intros H. destruct (importData data d) as [r d'] eqn:E. cbn [fst snd] in *. subst r.
  unfold importData in E.
  apply bind_throw_inv in E. destruct E as [E | [[] [d1 [H1 E]]]]; [discriminate|].
  unfold delete_all_transactions in H1. injection H1 as <-.
  apply bind_throw_inv in E. destruct E as [E | [[] [d2 [H2 E]]]]; [discriminate|].
  unfold delete_all_wallets in H2. injection H2 as <-.
  apply bind_throw_inv in E. destruct E as [E | [[] [d3 [H3 E]]]].
  { left. destruct (for_each_insert_wallets_throw _ _ _ _ _ E) as [He [k Hk]].
    split; [exact He|]. exists k. exact Hk. }
  destruct (for_each_insert_wallets _ _ _ _ H3) as [Hw3 [Ht3 _]].
  cbn [wallets transactions app] in Hw3, Ht3.
  apply bind_throw_inv in E. destruct E as [E | [[] [d4 [H4 E]]]].
  { right. destruct (for_each_insert_transactions_throw _ _ _ _ E) as [He [k Hk]].
    split; [exact He|]. exists k. rewrite Hk, Hw3, Ht3. reflexivity. }
  apply bind_throw_inv in E. destruct E as [E | [ids [d5 [H5 E]]]]; [discriminate|].
  rewrite for_each_recalculateBalance_ok in E. discriminate.
Qed.

Lemma importData_failure_wipes_witness :
  fst (importData (ExportData.mk [wallet_main; wallet_main] []) ledger_main)
    = Throw SqlitePrimaryKey /\
  ((SqlitePrimaryKey = SqlitePrimaryKey /\
    exists k, snd (importData (ExportData.mk [wallet_main; wallet_main] []) ledger_main) =
              mkdb (map import_wallet_row (firstn k [wallet_main; wallet_main])) []) \/
   ((SqlitePrimaryKey = SqlitePrimaryKey \/ SqlitePrimaryKey = SqliteForeignKey) /\
    exists k, snd (importData (ExportData.mk [wallet_main; wallet_main] []) ledger_main) =
              mkdb (map import_wallet_row [wallet_main; wallet_main]) (firstn k []))).
Proof.
  assert (H : fst (importData (ExportData.mk [wallet_main; wallet_main] []) ledger_main)
              = Throw SqlitePrimaryKey) by reflexivity.
  split; [exact H|].
  exact (importData_failure_wipes (ExportData.mk [wallet_main; wallet_main] []) ledger_main
           SqlitePrimaryKey H).
Defined.

Lemma split_char_nonempty (c : ascii) (s : string) : split_char c s <> [].
Proof.
  destruct s as [|x s]; cbn; [discriminate|].
  destruct (Ascii.eqb x c); [discriminate|].
  destruct (split_char c s); discriminate.
Qed.

Lemma split_char_sep (c : ascii) (a b : string) :
  split_char c (a ++ String c b) = (split_char c a ++ split_char c b)%list.
Proof.
  induction a as [|x a IH]; cbn [append split_char].
  - rewrite Ascii.eqb_refl. reflexivity.
  - rewrite IH. destruct (Ascii.eqb x c); [reflexivity|].
    destruct (split_char c a) as [|p ps] eqn:E; [exfalso; exact (split_char_nonempty c a E)|].
    reflexivity.
Qed.

Lemma split_char_none (c : ascii) (s : string) :
  ~ In c (list_ascii_of_string s) -> split_char c s = [s].
Proof.
  induction s as [|x s IH]; intros H; [reflexivity|].
  cbn [list_ascii_of_string In] in H. cbn [split_char].
  destruct (Ascii.eqb x c) eqn:E.
  - apply Ascii.eqb_eq in E. exfalso. apply H. left. exact E.
  - rewrite IH; [reflexivity|]. intros Hin. apply H. right. exact Hin.
Qed.

Lemma last_opt_app {A} (l1 l2 : list A) : l2 <> [] -> last_opt (l1 ++ l2)%list = last_opt l2.
Proof.
  intros Hne. induction l1 as [|x l1 IH]; [reflexivity|].
  cbn [app]. rewrite <- IH. destruct (l1 ++ l2)%list eqn:E; [|reflexivity].
  apply app_eq_nil in E. destruct E as [_ E]. contradiction.
Qed.

(** The extension [saveImageToLocal] gives the copy is the lowercased text
    after the last dot of the URI, and the whole lowercased URI when it has
    no dot; ['jpg'] replaces an empty result. *)
Theorem saveImageToLocal_extension (toLowerCase : string -> string) (u : string) :
  (~ In "."%char (list_ascii_of_string u) ->
   image_ext toLowerCase u = if toLowerCase u =? "" then "jpg" else toLowerCase u) /\
  (forall a b, u = (a ++ String "." b)%string -> ~ In "."%char (list_ascii_of_string b) ->
   image_ext toLowerCase u = if toLowerCase b =? "" then "jpg" else toLowerCase b).
Proof.
  split.
  - intros H. unfold image_ext. rewrite (split_char_none _ _ H). reflexivity.
  - intros a b -> H. unfold image_ext. rewrite split_char_sep, last_opt_app
      by apply split_char_nonempty.
    rewrite (split_char_none _ _ H). reflexivity.
Qed.




Lemma str_app_nil_r (a : string) : (a ++ "")%string = a.
Proof. induction a as [|x a IH]; cbn; [reflexivity|now rewrite IH]. Qed.



















